(** * UltraGrid video capture: registry/dispatch and the file backend

    A shallow embedding of [src/video_capture.c] (device registry,
    [vidcap_init], [vidcap_done], [vidcap_grab]) and of
    [src/video_capture/file.c] (option parsing, control messages, the
    ingestion worker, [get_audio] and [vidcap_file_grab]), followed by
    the properties of the capture subsystem proved about them.

    Layout: definitions first (one module per source unit), theorems
    afterwards. *)

From Stdlib Require Import ZArith QArith Qround Qabs Qreduction.
From Stdlib Require Import List String Ascii Bool Lia Lqa.
From Stdlib Require Import Floats.
From Stdlib Require Uint63.
From stdpp Require Import gmap.
Import ListNotations.

Local Open Scope Z_scope.

(* ================================================================== *)
(** * Part I: definitions *)
(* ================================================================== *)

(** ** C [double] arithmetic

    A finite [double] is a rational; every operation computes the exact
    rational result and rounds it to the nearest value with a 53-bit
    significand, ties to even (IEEE 754 binary64, default rounding).
    The exponent range is not bounded: overflow to infinity and
    subnormal numbers do not occur for the magnitudes handled by the
    capture code (time stamps, sample rates, frame rates).  Division by
    zero is outside the model (Rocq's [/] on [Q] returns 0 there). *)
Module Double.

Definition double := Q.

(** [scale2 q s] is [q * 2^s]. *)
Definition scale2 (q : Q) (s : Z) : Q :=
  if 0 <=? s then (q * inject_Z (2 ^ s))%Q else (q / inject_Z (2 ^ (- s)))%Q.

(** Round to the nearest integer, ties to even. *)
Definition rne (x : Q) : Z :=
  let f := Qfloor x in
  match Qcompare (x - inject_Z f) (1 # 2) with
  | Lt => f
  | Gt => f + 1
  | Eq => if Z.even f then f else f + 1
  end.

(** [ilog2 q], for [q > 0], is the integer [e] with [2^e <= q < 2^(e+1)]. *)
Definition ilog2 (q : Q) : Z :=
  let e0 := Z.log2 (Qnum q) - Z.log2 (Zpos (Qden q)) in
  if Qle_bool (scale2 1 e0) q then e0 else e0 - 1.

(** Rounding of an exact result to binary64. *)
Definition round64 (q : Q) : double :=
  if Qeq_bool q 0 then 0%Q
  else
    let s := 52 - ilog2 (Qabs q) in
    Qred (scale2 (inject_Z (rne (scale2 q s))) (- s)).

Definition of_Z (z : Z) : double := round64 (inject_Z z).
Definition add (x y : double) : double := round64 (x + y).
Definition sub (x y : double) : double := round64 (x - y).
Definition mul (x y : double) : double := round64 (x * y).
Definition div (x y : double) : double := round64 (x / y).

(** Conversion to an integer type, [(int) x]: the fractional part is
    discarded (truncation toward zero). *)
Definition to_Z (x : double) : Z := Z.quot (Qnum x) (Zpos (Qden x)).

(** The value of a hardware binary64 number, for comparing [round64]
    with the machine's own arithmetic. *)
Definition of_float (f : float) : option Q :=
  match Prim2SF f with
  | S754_zero _ => Some 0%Q
  | S754_finite sg m e =>
      Some (Qred (scale2 (inject_Z (if sg then Z.neg m else Z.pos m)) e))
  | _ => None
  end.

End Double.

(** ** C library functions used by the capture code

    [strstr], [strcmp], [strncmp], [strchr], [strtol], [atoi] and
    [strtok_r] on NUL-terminated strings, following ISO C; [long] is
    64 bits wide and [int] 32 bits wide (LP64). *)
Module CLib.

Definition LONG_MAX : Z := 2 ^ 63 - 1.
Definition LONG_MIN : Z := - 2 ^ 63.
Definition INT_MAX : Z := 2 ^ 31 - 1.
Definition INT64_MAX : Z := 2 ^ 63 - 1.
Definition INT64_MIN : Z := - 2 ^ 63.

(** Conversion of an out-of-range value to [int] wraps around. *)
Definition to_int (z : Z) : Z := (z + 2 ^ 31) mod 2 ^ 32 - 2 ^ 31.

Definition strlen (s : string) : nat := String.length s.

(** [s + n] for a [char *]: the string from its [n]-th character on. *)
Fixpoint str_offset (n : nat) (s : string) : string :=
  match n, s with
  | O, _ => s
  | S n', String _ s' => str_offset n' s'
  | S _, EmptyString => EmptyString
  end.

(** [strncmp (s, p, strlen (p)) == 0]. *)
Fixpoint has_prefix (p s : string) : bool :=
  match p, s with
  | EmptyString, _ => true
  | String a p', String b s' => Ascii.eqb a b && has_prefix p' s'
  | String _ _, EmptyString => false
  end.

(** [strstr (haystack, needle) != NULL]. *)
Fixpoint strstr (haystack needle : string) : bool :=
  has_prefix needle haystack ||
  match haystack with
  | EmptyString => false
  | String _ h' => strstr h' needle
  end.

(** [strcmp (a, b) == 0]. *)
Definition strcmp_eq (a b : string) : bool := String.eqb a b.

(** [strchr (s, c) != NULL]. *)
Fixpoint strchr (s : string) (c : ascii) : bool :=
  match s with
  | EmptyString => false
  | String a s' => Ascii.eqb a c || strchr s' c
  end.

Definition code (c : ascii) : Z := Z.of_nat (nat_of_ascii c).

Definition isspace (c : ascii) : bool :=
  (code c =? 32) || ((9 <=? code c) && (code c <=? 13)).

(** Value of a character as a digit, letters standing for 10 to 35. *)
Definition digit_val (c : ascii) : option Z :=
  let n := code c in
  if (48 <=? n) && (n <=? 57) then Some (n - 48)
  else if (97 <=? n) && (n <=? 122) then Some (n - 87)
  else if (65 <=? n) && (n <=? 90) then Some (n - 55)
  else None.

Definition is_digit (base : Z) (c : ascii) : bool :=
  match digit_val c with
  | Some d => d <? base
  | None => false
  end.

Fixpoint skip_space (s : string) : string :=
  match s with
  | String c s' => if isspace c then skip_space s' else s
  | EmptyString => s
  end.

(** The digit loop of [strtol]: the accumulated value and the first
    character that is not a digit of the base. *)
Fixpoint strtol_digits (base acc : Z) (s : string) : Z * string :=
  match s with
  | String c s' =>
      match digit_val c with
      | Some d =>
          if d <? base then strtol_digits base (acc * base + d) s' else (acc, s)
      | None => (acc, s)
      end
  | EmptyString => (acc, s)
  end.

Definition first_is_digit (base : Z) (s : string) : bool :=
  match s with
  | String c _ => is_digit base c
  | EmptyString => false
  end.

(** The base and the start of the digits, after an optional [0x] or
    [0] prefix (base 0 and base 16 only). *)
Definition strtol_base (base : Z) (s : string) : Z * string :=
  match s with
  | String "0" (String x s') =>
      if (Ascii.eqb x "x" || Ascii.eqb x "X") && first_is_digit 16 s'
         && ((base =? 0) || (base =? 16))
      then (16, s')
      else if base =? 0 then (8, s) else (base, s)
  | String "0" EmptyString => if base =? 0 then (8, s) else (base, s)
  | _ => if base =? 0 then (10, s) else (base, s)
  end.

Definition clamp_long (z : Z) : Z := Z.max LONG_MIN (Z.min LONG_MAX z).

(** [strtol (nptr, &endptr, base)]: the value and the string [endptr]
    points to.  Without any digit the value is 0 and [endptr] is
    [nptr]; a value out of range is replaced by [LONG_MAX] or
    [LONG_MIN]. *)
Definition strtol (nptr : string) (base : Z) : Z * string :=
  let s1 := skip_space nptr in
  let '(neg, s2) :=
    match s1 with
    | String "-" r => (true, r)
    | String "+" r => (false, r)
    | _ => (false, s1)
    end in
  let '(b, s3) := strtol_base base s2 in
  if first_is_digit b s3 then
    let '(v, rest) := strtol_digits b 0 s3 in
    (clamp_long (if neg then - v else v), rest)
  else (0, nptr).

(** [atoi (s)] is [(int) strtol (s, NULL, 10)]. *)
Definition atoi (s : string) : Z := to_int (fst (strtol s 10)).

(** The tokens returned by successive calls of [strtok_r] with the
    delimiter [":"]: the maximal non-empty runs of other characters. *)
Fixpoint strtok_colon (s cur : string) : list string :=
  match s with
  | EmptyString => if String.eqb cur "" then [] else [cur]
  | String c s' =>
      if Ascii.eqb c ":"
      then (if String.eqb cur "" then strtok_colon s' ""
            else cur :: strtok_colon s' "")
      else strtok_colon s' (cur ++ String c "")
  end.

(** What the buffer given to the first [strtok_r] call reads as a
    string afterwards: the delimiter that ends the first token has been
    overwritten with NUL. *)
Fixpoint strtok_head (s : string) (in_token : bool) : string :=
  match s with
  | EmptyString => EmptyString
  | String c s' =>
      if Ascii.eqb c ":"
      then (if in_token then EmptyString else String c (strtok_head s' false))
      else String c (strtok_head s' true)
  end.

End CLib.

(** ** Frames ([types.h], [audio/types.h])

    Only the fields the capture code reads or writes. *)
Module Types.

Definition byte := Z.

Record video_desc := {
  width : Z;
  height : Z;
  color_spec : Z;
  fps : Double.double;
  interlacing : Z;
  tile_count : Z
}.

(** A [struct video_frame] with its single tile. *)
Record video_frame := {
  vf_desc : video_desc;
  vf_data : list byte
}.

Record audio_frame := {
  bps : Z;              (* bytes per sample *)
  sample_rate : Z;
  data : list byte;     (* the buffer, [data_len] bytes of it are valid *)
  data_len : Z;
  ch_count : Z;
  max_size : Z
}.

(** Result of an operation that may abort the process. *)
Inductive outcome (A : Type) : Type :=
| Ret (a : A)           (* returns normally *)
| AssertFail            (* an [assert] fails: [abort ()] *)
| Undefined.            (* access outside an object: undefined behaviour *)
Arguments Ret {A} a.
Arguments AssertFail {A}.
Arguments Undefined {A}.

End Types.

(** ** [src/video_capture.c]: device registry and dispatch

    The table is the statically linked configuration (no
    [BUILD_LIBRARIES]); what the backends' entry points do is given by
    the table entries. *)
Module VideoCapture.
Import Types.

Definition VIDCAP_MAGIC : Z := 0x76ae98f0.

Definition vidcap_id_t := Z.

Record vidcap_type := {
  vt_id : vidcap_id_t;
  vt_name : string;
  vt_description : string
}.

(** A [void *] returned by a backend's init: [NULL], the address of
    the global [vidcap_init_noerr], or the backend's own state. *)
Inductive voidp :=
| NullPtr
| InitNoerrPtr
| StatePtr (a : Z).

(** [struct vidcap]: the handle wrapper. *)
Record vidcap := {
  state : voidp;
  index : Z;
  magic : Z
}.

Record vidcap_device_api := {
  id : vidcap_id_t;
  library_name : option string;
  func_probe : unit -> option vidcap_type;
  func_init : string -> Z -> voidp;
  func_done : voidp -> unit;
  func_grab : voidp -> option video_frame * option audio_frame
}.

Definition set_id (e : vidcap_device_api) (i : vidcap_id_t) : vidcap_device_api :=
  {| id := i; library_name := library_name e; func_probe := func_probe e;
     func_init := func_init e; func_done := func_done e; func_grab := func_grab e |}.

(** The file-scope variables: the descriptor table, the array
    [available_devices] (as long as the table) and its fill count. *)
Record globals := {
  vidcap_device_table : list vidcap_device_api;
  available_devices : list (option vidcap_type);
  available_device_count : Z
}.

(** Program start: nothing probed, the array zero-initialised. *)
Definition initial_globals (table : list vidcap_device_api) : globals :=
  {| vidcap_device_table := table;
     available_devices := replicate (length table) None;
     available_device_count := 0 |}.

(** One iteration of the probing loop, for table index [i]. *)
Definition probe_one (g : globals) (i : nat) : globals :=
  match vidcap_device_table g !! i with
  | Some e =>
      match func_probe e tt with
      | Some dt =>
          {| vidcap_device_table := <[i := set_id e (vt_id dt)]> (vidcap_device_table g);
             available_devices :=
               <[Z.to_nat (available_device_count g) := Some dt]> (available_devices g);
             available_device_count := available_device_count g + 1 |}
      | None => g
      end
  | None => g
  end.

Definition vidcap_init_devices (g : globals) : outcome (Z * globals) :=
  if negb (available_device_count g =? 0) then AssertFail
  else
    let g' := fold_left probe_one (seq 0 (length (vidcap_device_table g))) g in
    Ret (available_device_count g', g').

Definition vidcap_free_devices (g : globals) : globals :=
  {| vidcap_device_table := vidcap_device_table g;
     available_devices :=
       fold_left (fun devs i => <[i := None]> devs)
                 (seq 0 (Z.to_nat (available_device_count g))) (available_devices g);
     available_device_count := 0 |}.

Definition vidcap_get_device_count (g : globals) : Z := available_device_count g.

Definition vidcap_get_device_details (g : globals) (idx : Z) : outcome vidcap_type :=
  if negb (idx <? available_device_count g) then AssertFail
  else if idx <? 0 then Undefined
  else
    match available_devices g !! Z.to_nat idx with
    | None => Undefined
    | Some None => AssertFail
    | Some (Some dt) => Ret dt
    end.

(** The heap of handle wrappers: [malloc] returns an address not in
    use, [free] removes the object. *)
Definition malloc (h : gmap positive vidcap) : positive := fresh (dom h).

(** The loop of [vidcap_init] from table index [i] on; [slot] is the
    content of the caller's [struct vidcap **state]. *)
Fixpoint vidcap_init_from (entries : list vidcap_device_api) (i : Z)
    (h : gmap positive vidcap) (slot : option positive)
    (dev : vidcap_id_t) (fmt : string) (flags : Z)
  : Z * gmap positive vidcap * option positive :=
  match entries with
  | [] => (-1, h, slot)
  | e :: rest =>
      if id e =? dev then
        let d := malloc h in
        let st := func_init e fmt flags in
        let h1 := <[d := {| state := st; index := i; magic := VIDCAP_MAGIC |}]> h in
        match st with
        | NullPtr => (-1, delete d h1, slot)
        | InitNoerrPtr => (1, delete d h1, slot)
        | StatePtr _ => (0, h1, Some d)
        end
      else vidcap_init_from rest (i + 1) h slot dev fmt flags
  end.

Definition vidcap_init (g : globals) (h : gmap positive vidcap) (slot : option positive)
    (dev : vidcap_id_t) (fmt : string) (flags : Z)
  : Z * gmap positive vidcap * option positive :=
  vidcap_init_from (vidcap_device_table g) 0 h slot dev fmt flags.

(** Dispatch through a handle at address [a]. *)
Definition vidcap_done (g : globals) (h : gmap positive vidcap) (a : positive)
  : outcome (gmap positive vidcap) :=
  match h !! a with
  | None => Undefined
  | Some d =>
      if negb (magic d =? VIDCAP_MAGIC) then AssertFail
      else if index d <? 0 then Undefined
      else
        match vidcap_device_table g !! Z.to_nat (index d) with
        | None => Undefined
        | Some e => let _ := func_done e (state d) in Ret (delete a h)
        end
  end.

Definition vidcap_grab (g : globals) (h : gmap positive vidcap) (a : positive)
  : outcome (option video_frame * option audio_frame) :=
  match h !! a with
  | None => Undefined
  | Some d =>
      if negb (magic d =? VIDCAP_MAGIC) then AssertFail
      else if index d <? 0 then Undefined
      else
        match vidcap_device_table g !! Z.to_nat (index d) with
        | None => Undefined
        | Some e => Ret (func_grab e (state d))
        end
  end.

End VideoCapture.

(** ** [src/video_capture/file.c]: the file backend

    The libav demuxer and decoders are the environment: what they
    return is an input of the functions below.  Calls that act on the
    environment (seek requests, message replies, condition-variable
    signals, frame disposal) are recorded as events.  Code that runs
    between [pthread_mutex_lock] and [pthread_mutex_unlock], or between
    two waits, is one atomic step; a thread blocked in
    [pthread_cond_wait] re-evaluates the condition of its loop whenever
    it is scheduled again. *)
Module File.
Import Types CLib.

Definition AUDIO_RATIO : Double.double := Double.round64 (105 # 100).
Definition FILE_DEFAULT_QUEUE_LEN : Z := 1.

(** Constants of libav and of [video_capture.h], [types.h]. *)
Definition AVERROR_EOF : Z := - 0x20464f45.
Definition AV_NOPTS_VALUE : Z := INT64_MIN.
Definition AVSEEK_FLAG_FRAME : Z := 8.
Definition FF_THREAD_FRAME : Z := 1.
Definition FF_THREAD_SLICE : Z := 2.
Definition VIDCAP_FLAG_AUDIO_ANY : Z := 14.
Definition VIDCAP_INIT_OK : Z := 0.
Definition VIDCAP_INIT_NOERR : Z := 1.
Definition VIDCAP_INIT_FAIL : Z := -1.
Definition VIDEO_CODEC_NONE : Z := 0.
Definition PROGRESSIVE : Z := 0.

Definition MIN (a b : Z) : Z := if a <? b then a else b.

(** [clampi] of [utils/misc.cpp]. *)
Definition clampi (val lo hi : Z) : Z :=
  if val <? lo then lo else if val >? hi then hi else val.

Record AVStream := {
  time_base_num : Z;
  time_base_den : Z;
  start_time : Z;
  duration : Z;
  r_frame_rate_num : Z;
  r_frame_rate_den : Z;
  codecpar_width : Z;
  codecpar_height : Z;
  codecpar_codec_id : Z
}.

Record AVFormatContext := {
  ctx_start_time : Z;
  streams : list AVStream
}.

Inductive condvar := new_frame_ready | frame_consumed | paused_cv.

Inductive response := RESPONSE_OK | RESPONSE_BAD_REQUEST.

Inductive event :=
| EvSeekFile (stream_index min_ts ts max_ts flags : Z)   (* [avformat_seek_file] *)
| EvResponse (r : response)                              (* [free_message] with a reply *)
| EvExitUv (status : Z)                                  (* [exit_uv] *)
| EvSignal (cv : condvar)                                (* [pthread_cond_signal] *)
| EvDispose (f : video_frame).                           (* [VIDEO_FRAME_DISPOSE] *)

Record vidcap_state_lavf_decoder := {
  src_filename : string;
  fmt_ctx : AVFormatContext;
  thread_count : Z;
  thread_type : Z;
  failed : bool;
  loop : bool;
  new_msg : bool;
  no_decode : bool;
  convert_to : Z;
  paused : bool;
  use_audio : bool;
  video_stream_idx : Z;
  audio_stream_idx : Z;
  last_vid_pts : Z  (* last played PTS, or DTS if the packet has none *);
  video_desc : Types.video_desc;
  video_frame_queue : list video_frame;
  max_queue_len : Z;
  audio_frame : Types.audio_frame;
  last_frame : Z  (* time of the last returned frame, in microseconds *);
  should_exit : bool;
  mod_msgs : list string  (* messages queued for [mod], oldest first *)
}.

Definition set_failed (v : bool) (s : vidcap_state_lavf_decoder) : vidcap_state_lavf_decoder :=
  {| src_filename := src_filename s; fmt_ctx := fmt_ctx s; thread_count := thread_count s;
     thread_type := thread_type s; failed := v; loop := loop s; new_msg := new_msg s;
     no_decode := no_decode s; convert_to := convert_to s; paused := paused s; use_audio :=
     use_audio s; video_stream_idx := video_stream_idx s; audio_stream_idx :=
     audio_stream_idx s; last_vid_pts := last_vid_pts s; video_desc := video_desc s;
     video_frame_queue := video_frame_queue s; max_queue_len := max_queue_len s; audio_frame
     := audio_frame s; last_frame := last_frame s; should_exit := should_exit s; mod_msgs :=
     mod_msgs s |}.

Definition set_new_msg (v : bool) (s : vidcap_state_lavf_decoder) : vidcap_state_lavf_decoder :=
  {| src_filename := src_filename s; fmt_ctx := fmt_ctx s; thread_count := thread_count s;
     thread_type := thread_type s; failed := failed s; loop := loop s; new_msg := v;
     no_decode := no_decode s; convert_to := convert_to s; paused := paused s; use_audio :=
     use_audio s; video_stream_idx := video_stream_idx s; audio_stream_idx :=
     audio_stream_idx s; last_vid_pts := last_vid_pts s; video_desc := video_desc s;
     video_frame_queue := video_frame_queue s; max_queue_len := max_queue_len s; audio_frame
     := audio_frame s; last_frame := last_frame s; should_exit := should_exit s; mod_msgs :=
     mod_msgs s |}.

Definition set_paused (v : bool) (s : vidcap_state_lavf_decoder) : vidcap_state_lavf_decoder :=
  {| src_filename := src_filename s; fmt_ctx := fmt_ctx s; thread_count := thread_count s;
     thread_type := thread_type s; failed := failed s; loop := loop s; new_msg := new_msg s;
     no_decode := no_decode s; convert_to := convert_to s; paused := v; use_audio :=
     use_audio s; video_stream_idx := video_stream_idx s; audio_stream_idx :=
     audio_stream_idx s; last_vid_pts := last_vid_pts s; video_desc := video_desc s;
     video_frame_queue := video_frame_queue s; max_queue_len := max_queue_len s; audio_frame
     := audio_frame s; last_frame := last_frame s; should_exit := should_exit s; mod_msgs :=
     mod_msgs s |}.

Definition set_last_vid_pts (v : Z) (s : vidcap_state_lavf_decoder) : vidcap_state_lavf_decoder :=
  {| src_filename := src_filename s; fmt_ctx := fmt_ctx s; thread_count := thread_count s;
     thread_type := thread_type s; failed := failed s; loop := loop s; new_msg := new_msg s;
     no_decode := no_decode s; convert_to := convert_to s; paused := paused s; use_audio :=
     use_audio s; video_stream_idx := video_stream_idx s; audio_stream_idx :=
     audio_stream_idx s; last_vid_pts := v; video_desc := video_desc s; video_frame_queue :=
     video_frame_queue s; max_queue_len := max_queue_len s; audio_frame := audio_frame s;
     last_frame := last_frame s; should_exit := should_exit s; mod_msgs := mod_msgs s |}.

Definition set_video_frame_queue (v : list video_frame) (s : vidcap_state_lavf_decoder) : vidcap_state_lavf_decoder :=
  {| src_filename := src_filename s; fmt_ctx := fmt_ctx s; thread_count := thread_count s;
     thread_type := thread_type s; failed := failed s; loop := loop s; new_msg := new_msg s;
     no_decode := no_decode s; convert_to := convert_to s; paused := paused s; use_audio :=
     use_audio s; video_stream_idx := video_stream_idx s; audio_stream_idx :=
     audio_stream_idx s; last_vid_pts := last_vid_pts s; video_desc := video_desc s;
     video_frame_queue := v; max_queue_len := max_queue_len s; audio_frame := audio_frame s;
     last_frame := last_frame s; should_exit := should_exit s; mod_msgs := mod_msgs s |}.

Definition set_audio_frame (v : Types.audio_frame) (s : vidcap_state_lavf_decoder) : vidcap_state_lavf_decoder :=
  {| src_filename := src_filename s; fmt_ctx := fmt_ctx s; thread_count := thread_count s;
     thread_type := thread_type s; failed := failed s; loop := loop s; new_msg := new_msg s;
     no_decode := no_decode s; convert_to := convert_to s; paused := paused s; use_audio :=
     use_audio s; video_stream_idx := video_stream_idx s; audio_stream_idx :=
     audio_stream_idx s; last_vid_pts := last_vid_pts s; video_desc := video_desc s;
     video_frame_queue := video_frame_queue s; max_queue_len := max_queue_len s; audio_frame
     := v; last_frame := last_frame s; should_exit := should_exit s; mod_msgs := mod_msgs s
     |}.

Definition set_last_frame (v : Z) (s : vidcap_state_lavf_decoder) : vidcap_state_lavf_decoder :=
  {| src_filename := src_filename s; fmt_ctx := fmt_ctx s; thread_count := thread_count s;
     thread_type := thread_type s; failed := failed s; loop := loop s; new_msg := new_msg s;
     no_decode := no_decode s; convert_to := convert_to s; paused := paused s; use_audio :=
     use_audio s; video_stream_idx := video_stream_idx s; audio_stream_idx :=
     audio_stream_idx s; last_vid_pts := last_vid_pts s; video_desc := video_desc s;
     video_frame_queue := video_frame_queue s; max_queue_len := max_queue_len s; audio_frame
     := audio_frame s; last_frame := v; should_exit := should_exit s; mod_msgs := mod_msgs s
     |}.

Definition set_should_exit (v : bool) (s : vidcap_state_lavf_decoder) : vidcap_state_lavf_decoder :=
  {| src_filename := src_filename s; fmt_ctx := fmt_ctx s; thread_count := thread_count s;
     thread_type := thread_type s; failed := failed s; loop := loop s; new_msg := new_msg s;
     no_decode := no_decode s; convert_to := convert_to s; paused := paused s; use_audio :=
     use_audio s; video_stream_idx := video_stream_idx s; audio_stream_idx :=
     audio_stream_idx s; last_vid_pts := last_vid_pts s; video_desc := video_desc s;
     video_frame_queue := video_frame_queue s; max_queue_len := max_queue_len s; audio_frame
     := audio_frame s; last_frame := last_frame s; should_exit := v; mod_msgs := mod_msgs s
     |}.

Definition set_mod_msgs (v : list string) (s : vidcap_state_lavf_decoder) : vidcap_state_lavf_decoder :=
  {| src_filename := src_filename s; fmt_ctx := fmt_ctx s; thread_count := thread_count s;
     thread_type := thread_type s; failed := failed s; loop := loop s; new_msg := new_msg s;
     no_decode := no_decode s; convert_to := convert_to s; paused := paused s; use_audio :=
     use_audio s; video_stream_idx := video_stream_idx s; audio_stream_idx :=
     audio_stream_idx s; last_vid_pts := last_vid_pts s; video_desc := video_desc s;
     video_frame_queue := video_frame_queue s; max_queue_len := max_queue_len s; audio_frame
     := audio_frame s; last_frame := last_frame s; should_exit := should_exit s; mod_msgs :=
     v |}.

(** Modelled from the spec: [utils/list.c] is not among the sources;
    the Frame Queue is a FIFO of pending video frames (spec, section
    3): [append] adds at the tail, [pop] removes the head and returns
    [NULL] on an empty list. *)
Definition simple_linked_list_size {A} (l : list A) : Z := Z.of_nat (length l).
Definition simple_linked_list_append {A} (l : list A) (x : A) : list A := l ++ [x].
Definition simple_linked_list_pop {A} (l : list A) : option A * list A :=
  match l with
  | [] => (None, [])
  | x :: r => (Some x, r)
  end.

(** *** Control messages *)

Definition first_char_is (s : string) (c : ascii) : bool :=
  match s with
  | String a _ => Ascii.eqb a c
  | EmptyString => false
  end.

(** The position given to [avformat_seek_file]:
    [st->start_time + s->last_vid_pts + sec * tb.den / tb.num], the
    integer sum converted to [double], the offset computed in [double]
    and the result converted to [int64_t]. *)
Definition seek_ts (st : AVStream) (last_pts : Z) (sec : Double.double) : Z :=
  Double.to_Z
    (Double.add (Double.of_Z (start_time st + last_pts))
       (Double.div (Double.mul sec (Double.of_Z (time_base_den st)))
          (Double.of_Z (time_base_num st)))).

(** The number of seconds a ["seek "] message asks for: the count read
    by [strtol], divided by the frame rate unless an [s] follows. *)
Definition seek_seconds (s : vidcap_state_lavf_decoder) (text : string) : Double.double :=
  let count_str := str_offset (strlen "seek ") text in
  let '(n, endptr) := strtol count_str 0 in
  let sec := Double.of_Z n in
  if negb (first_char_is endptr "s") then Double.div sec (fps (video_desc s)) else sec.

(** One iteration of the loop of [vidcap_file_process_messages], for the
    message [text].  The stream [streams[video_stream_idx]] exists
    after a successful init; without it no seek is issued. *)
Definition process_message (s : vidcap_state_lavf_decoder) (text : string)
  : vidcap_state_lavf_decoder * list event :=
  if strstr text "seek " then
    let sec := seek_seconds s text in
    match streams (fmt_ctx s) !! Z.to_nat (video_stream_idx s) with
    | Some st =>
        (s, [EvSeekFile (video_stream_idx s) INT64_MIN (seek_ts st (last_vid_pts s) sec)
               INT64_MAX AVSEEK_FLAG_FRAME;
             EvResponse RESPONSE_OK])
    | None => (s, [EvResponse RESPONSE_OK])
    end
  else if strcmp_eq text "pause" then
    (set_paused (negb (paused s)) s, [EvResponse RESPONSE_OK])
  else if strcmp_eq text "quit" then
    (s, [EvExitUv 0; EvResponse RESPONSE_OK])
  else
    (s, [EvResponse RESPONSE_BAD_REQUEST]).

Fixpoint process_message_list (msgs : list string) (s : vidcap_state_lavf_decoder)
  : vidcap_state_lavf_decoder * list event :=
  match msgs with
  | [] => (s, [])
  | m :: rest =>
      let '(s1, ev1) := process_message s m in
      let '(s2, ev2) := process_message_list rest s1 in
      (s2, ev1 ++ ev2)
  end.

(** [check_message] hands over the queued messages one by one until
    none is left. *)
Definition vidcap_file_process_messages (s : vidcap_state_lavf_decoder)
  : vidcap_state_lavf_decoder * list event :=
  process_message_list (mod_msgs s) (set_mod_msgs [] s).

(** The message system queues [text] for the module and calls
    [vidcap_file_new_message]. *)
Definition vidcap_file_new_message (text : string) (s : vidcap_state_lavf_decoder)
  : vidcap_state_lavf_decoder * list event :=
  (set_new_msg true (set_mod_msgs (mod_msgs s ++ [text]) s), [EvSignal paused_cv]).

Definition vidcap_file_should_exit (s : vidcap_state_lavf_decoder)
  : vidcap_state_lavf_decoder * list event :=
  (set_should_exit true s,
   [EvSignal new_frame_ready; EvSignal frame_consumed; EvSignal paused_cv]).

(** *** The worker *)

Record packet := {
  stream_index : Z;
  pts : Z;
  dts : Z;
  pkt_data : list byte
}.

(** A decoded audio frame: its sample format and the interleaved bytes
    it contributes to the buffer. *)
Record audio_chunk := {
  ac_is_double : bool;
  ac_planar : bool;
  ac_bytes : list byte
}.

(** What libav returns during one iteration of the worker loop. *)
Record worker_input := {
  in_read_rc : Z;                  (* [av_read_frame] *)
  in_pkt : packet;                 (* the packet read, if any *)
  in_seek_rc : Z;                  (* [avformat_seek_file] to the start, on loop *)
  in_audio : list audio_chunk;     (* frames received from the audio decoder *)
  in_video : option (list byte)    (* the decoded and converted picture, if any *)
}.

Definition set_audio_data (d : list byte) (len : Z) (a : Types.audio_frame) : Types.audio_frame :=
  {| bps := bps a; sample_rate := sample_rate a; data := d; data_len := len;
     ch_count := ch_count a; max_size := max_size a |}.

(** Modelled from the spec: [append_audio_frame] of [audio/utils.c] is
    not among the sources; on capacity overflow the unit is dropped
    (spec, section 4.3, step 4). *)
Definition append_audio_frame (a : Types.audio_frame) (bytes : list byte) : Types.audio_frame :=
  let size := Z.of_nat (length bytes) in
  if data_len a + size >? max_size a then a
  else set_audio_data (firstn (Z.to_nat (data_len a)) (data a) ++ bytes) (data_len a + size) a.

Definition vidcap_file_write_audio (s : vidcap_state_lavf_decoder) (c : audio_chunk)
  : vidcap_state_lavf_decoder :=
  if ac_is_double c then s
  else if ac_planar c then
    let a := audio_frame s in
    let size := Z.of_nat (length (ac_bytes c)) in
    if data_len a + size >? max_size a then s
    else set_audio_frame
           (set_audio_data (firstn (Z.to_nat (data_len a)) (data a) ++ ac_bytes c)
              (data_len a + size) a) s
  else set_audio_frame (append_audio_frame (audio_frame s) (ac_bytes c)) s.

(** Where the worker thread stands between two atomic steps. *)
Inductive worker_pc :=
| WTop                          (* at the head of the [while] loop *)
| WPausedWait                   (* in [pthread_cond_wait (&s->paused_cv)] *)
| WQueueWait (out : video_frame) (* in [pthread_cond_wait (&s->frame_consumed)] *)
| WExited.                      (* returned *)

(** [FAIL_WORKER]. *)
Definition FAIL_WORKER (s : vidcap_state_lavf_decoder) (ev : list event)
  : worker_pc * vidcap_state_lavf_decoder * list event :=
  (WExited, set_failed true s, ev ++ [EvSignal new_frame_ready]).

(** The wait loop on [paused_cv] and the test that follows it. *)
Definition worker_paused (s : vidcap_state_lavf_decoder) (ev : list event)
  : worker_pc * vidcap_state_lavf_decoder * list event :=
  if negb (should_exit s) && negb (new_msg s) then (WPausedWait, s, ev)
  else if should_exit s then (WExited, s, ev)
  else (WTop, s, ev).

(** The tail of the video branch: wait for room, then append [out]. *)
Definition worker_enqueue (s : vidcap_state_lavf_decoder) (out : video_frame) (ev : list event)
  : worker_pc * vidcap_state_lavf_decoder * list event :=
  if negb (should_exit s)
     && (simple_linked_list_size (video_frame_queue s) >? max_queue_len s)
  then (WQueueWait out, s, ev)
  else if should_exit s then (WExited, s, ev ++ [EvDispose out])
  else (WTop,
        set_video_frame_queue (simple_linked_list_append (video_frame_queue s) out) s,
        ev ++ [EvSignal new_frame_ready]).

(** The loop body after the pause test: read a packet and route it. *)
Definition worker_read (i : worker_input) (s : vidcap_state_lavf_decoder) (ev : list event)
  : worker_pc * vidcap_state_lavf_decoder * list event :=
  if in_read_rc i =? AVERROR_EOF then
    if loop s then
      let ev' := ev ++ [EvSeekFile (-1) INT64_MIN (ctx_start_time (fmt_ctx s)) INT64_MAX 0] in
      if in_seek_rc i <? 0 then FAIL_WORKER s ev' else (WTop, s, ev')
    else (WTop, set_paused true s, ev)
  else if in_read_rc i <? 0 then FAIL_WORKER s ev
  else
    let pkt := in_pkt i in
    if stream_index pkt =? audio_stream_idx s then
      (WTop, fold_left vidcap_file_write_audio (in_audio i) s, ev)
    else if stream_index pkt =? video_stream_idx s then
      let s1 :=
        set_last_vid_pts (if pts pkt =? AV_NOPTS_VALUE then dts pkt else pts pkt) s in
      if no_decode s1 then
        worker_enqueue s1 {| vf_desc := video_desc s1; vf_data := pkt_data pkt |} ev
      else
        match in_video i with
        | None => (WTop, s1, ev)
        | Some pixels =>
            worker_enqueue s1 {| vf_desc := video_desc s1; vf_data := pixels |} ev
        end
    else (WTop, s, ev).

(** One atomic step of [vidcap_file_worker]. *)
Definition vidcap_file_worker (i : worker_input) (pc : worker_pc)
    (s : vidcap_state_lavf_decoder)
  : worker_pc * vidcap_state_lavf_decoder * list event :=
  match pc with
  | WExited => (WExited, s, [])
  | WPausedWait => worker_paused s []
  | WQueueWait out => worker_enqueue s out []
  | WTop =>
      if should_exit s then (WExited, s, [])
      else
        let '(s1, ev) :=
          if new_msg s then
            let '(s', ev') := vidcap_file_process_messages s in
            (set_new_msg false s', ev')
          else (s, []) in
        if paused s1 then worker_paused s1 ev
        else worker_read i s1 ev
  end.

(** *** The consumer side *)

(** The byte count [get_audio] takes from the buffer. *)
Definition get_audio_len (a : Types.audio_frame) (video_fps : Double.double) : Z :=
  MIN (Double.to_Z
         (Double.div (Double.mul AUDIO_RATIO (Double.of_Z (sample_rate a))) video_fps)
       * bps a * ch_count a)
      (data_len a).

Definition get_audio (s : vidcap_state_lavf_decoder) (video_fps : Double.double)
  : Types.audio_frame * vidcap_state_lavf_decoder :=
  let a := audio_frame s in
  let n := get_audio_len a video_fps in
  let ret :=
    {| bps := bps a; sample_rate := sample_rate a;
       data := firstn (Z.to_nat n) (data a); data_len := n;
       ch_count := ch_count a; max_size := n |} in
  (ret, set_audio_frame (set_audio_data (skipn (Z.to_nat n) (data a)) (data_len a - n) a) s).

Inductive grab_result :=
| GrabBlocked                                (* waits on [new_frame_ready] *)
| GrabRet (frame : option video_frame) (audio : option Types.audio_frame).

(** One attempt of [vidcap_file_grab]; [t] is the clock reading that
    ends the pacing loop. *)
Definition vidcap_file_grab (s : vidcap_state_lavf_decoder) (t : Z)
  : grab_result * vidcap_state_lavf_decoder * list event :=
  if (simple_linked_list_size (video_frame_queue s) =? 0)
     && negb (failed s) && negb (should_exit s)
  then (GrabBlocked, s, [])
  else if failed s || should_exit s then (GrabRet None None, s, [])
  else
    match simple_linked_list_pop (video_frame_queue s) with
    | (Some out, q) =>
        let s1 := set_video_frame_queue q s in
        let '(audio, s2) := get_audio s1 (fps (vf_desc out)) in
        (GrabRet (Some out) (Some audio), set_last_frame t s2, [EvSignal frame_consumed])
    | (None, _) => (GrabRet None None, s, [])
    end.

(** *** Opening and closing *)

(** The fields of the state that [vidcap_file_parse_fmt] writes, and
    its out-parameter [opportunistic_audio]. *)
Record file_opts := {
  o_src_filename : string;
  o_loop : bool;
  o_no_decode : bool;
  o_convert_to : Z;
  o_max_queue_len : Z;
  o_thread_count : Z;
  o_thread_type : Z;
  o_opportunistic_audio : bool
}.

(** Their values when [vidcap_file_init] calls the parser. *)
Definition default_opts : file_opts :=
  {| o_src_filename := ""; o_loop := false; o_no_decode := false;
     o_convert_to := VIDEO_CODEC_NONE; o_max_queue_len := FILE_DEFAULT_QUEUE_LEN;
     o_thread_count := 0; o_thread_type := Z.lor FF_THREAD_FRAME FF_THREAD_SLICE;
     o_opportunistic_audio := false |}.

Record AVCodecContext := {
  bytes_per_sample : Z;     (* [av_get_bytes_per_sample (sample_fmt)] *)
  ctx_sample_rate : Z;
  ctx_channels : Z;
  pix_fmt : Z
}.

(** What libav and the codec tables answer while a file is opened. *)
Record libav := {
  avformat_open_input : string -> Z * AVFormatContext;
  avformat_find_stream_info : Z;
  av_find_best_stream_audio : Z;
  av_find_best_stream_video : Z;
  open_dec_ctx_audio : option AVCodecContext;      (* [vidcap_file_open_dec_ctx] *)
  open_dec_ctx_video : option AVCodecContext;
  get_codec_from_name : string -> Z;
  get_av_to_ug_codec : Z -> Z;
  get_best_ug_codec_to_av : Z -> Z;
  get_av_to_uv_conversion : Z -> Z -> bool;        (* a conversion exists *)
  sws_getContext : bool;                           (* a scaler context is obtained *)
  UYVY : Z
}.

(** The body of the option loop for one token after the file name;
    [None] when the parser returns [false]. *)
Definition parse_item (lav : libav) (o : file_opts) (item : string) : option file_opts :=
  if strcmp_eq item "loop" then
    Some {| o_src_filename := o_src_filename o; o_loop := true; o_no_decode := o_no_decode o;
            o_convert_to := o_convert_to o; o_max_queue_len := o_max_queue_len o;
            o_thread_count := o_thread_count o; o_thread_type := o_thread_type o;
            o_opportunistic_audio := o_opportunistic_audio o |}
  else if strcmp_eq item "nodecode" then
    Some {| o_src_filename := o_src_filename o; o_loop := o_loop o; o_no_decode := true;
            o_convert_to := o_convert_to o; o_max_queue_len := o_max_queue_len o;
            o_thread_count := o_thread_count o; o_thread_type := o_thread_type o;
            o_opportunistic_audio := o_opportunistic_audio o |}
  else if strcmp_eq item "opportunistic_audio" then
    Some {| o_src_filename := o_src_filename o; o_loop := o_loop o; o_no_decode := o_no_decode o;
            o_convert_to := o_convert_to o; o_max_queue_len := o_max_queue_len o;
            o_thread_count := o_thread_count o; o_thread_type := o_thread_type o;
            o_opportunistic_audio := true |}
  else if has_prefix "codec=" item then
    let c := get_codec_from_name lav (str_offset (strlen "codec=") item) in
    if c =? VIDEO_CODEC_NONE then None
    else
      Some {| o_src_filename := o_src_filename o; o_loop := o_loop o; o_no_decode := o_no_decode o;
              o_convert_to := c; o_max_queue_len := o_max_queue_len o;
              o_thread_count := o_thread_count o; o_thread_type := o_thread_type o;
              o_opportunistic_audio := o_opportunistic_audio o |}
  else if has_prefix "queue=" item then
    Some {| o_src_filename := o_src_filename o; o_loop := o_loop o; o_no_decode := o_no_decode o;
            o_convert_to := o_convert_to o;
            o_max_queue_len := atoi (str_offset (strlen "queue=") item);
            o_thread_count := o_thread_count o; o_thread_type := o_thread_type o;
            o_opportunistic_audio := o_opportunistic_audio o |}
  else if has_prefix "threads=" item then
    let '(count, endptr) := strtol (str_offset (strlen "threads=") item) 0 in
    Some {| o_src_filename := o_src_filename o; o_loop := o_loop o; o_no_decode := o_no_decode o;
            o_convert_to := o_convert_to o; o_max_queue_len := o_max_queue_len o;
            o_thread_count := clampi count 0 INT_MAX;
            o_thread_type :=
              Z.lor (if strchr endptr "F" then FF_THREAD_FRAME else 0)
                    (if strchr endptr "S" then FF_THREAD_SLICE else 0);
            o_opportunistic_audio := o_opportunistic_audio o |}
  else None.

Fixpoint parse_items (lav : libav) (o : file_opts) (items : list string) : option file_opts :=
  match items with
  | [] => Some o
  | item :: rest =>
      match parse_item lav o item with
      | Some o' => parse_items lav o' rest
      | None => None
      end
  end.

(** The first token is the file name, already stored in
    [src_filename]; the others are options. *)
Definition vidcap_file_parse_fmt (lav : libav) (fmt : string) : option file_opts :=
  let o :=
    {| o_src_filename := strtok_head fmt false; o_loop := o_loop default_opts;
       o_no_decode := o_no_decode default_opts; o_convert_to := o_convert_to default_opts;
       o_max_queue_len := o_max_queue_len default_opts;
       o_thread_count := o_thread_count default_opts;
       o_thread_type := o_thread_type default_opts;
       o_opportunistic_audio := o_opportunistic_audio default_opts |} in
  parse_items lav o (tl (strtok_colon fmt "")).

Record vidcap_params := {
  params_fmt : string;
  params_flags : Z
}.

(** The audio frame of a state obtained from [calloc]. *)
Definition zero_audio_frame : Types.audio_frame :=
  {| bps := 0; sample_rate := 0; data := []; data_len := 0; ch_count := 0; max_size := 0 |}.

(** The audio part of [vidcap_file_init]: the stream index, the audio
    frame and [use_audio]; [None] when init fails there. *)
Definition init_audio (lav : libav) (flags : Z) (o : file_opts)
  : option (Z * Types.audio_frame * bool) :=
  if negb (Z.land flags VIDCAP_FLAG_AUDIO_ANY =? 0) then
    let idx := av_find_best_stream_audio lav in
    if (idx <? 0) && negb (o_opportunistic_audio o) then None
    else if idx >=? 0 then
      match open_dec_ctx_audio lav with
      | None => None
      | Some c =>
          Some (idx,
                {| bps := bytes_per_sample c; sample_rate := ctx_sample_rate c;
                   data := []; data_len := 0; ch_count := ctx_channels c;
                   max_size := bytes_per_sample c * ctx_channels c * ctx_sample_rate c |},
                true)
      end
    else Some (idx, zero_audio_frame, false)
  else Some (-1, zero_audio_frame, false).

(** The video part: the description of the frames produced; [None]
    when init fails there. *)
Definition init_video (lav : libav) (o : file_opts) (st : AVStream)
  : option Types.video_desc :=
  let desc c :=
    {| width := codecpar_width st; height := codecpar_height st; color_spec := c;
       fps := Double.div (Double.of_Z (r_frame_rate_num st)) (Double.of_Z (r_frame_rate_den st));
       interlacing := PROGRESSIVE; tile_count := 1 |} in
  if o_no_decode o then
    let c := get_av_to_ug_codec lav (codecpar_codec_id st) in
    if c =? VIDEO_CODEC_NONE then None else Some (desc c)
  else
    match open_dec_ctx_video lav with
    | None => None
    | Some vid_ctx =>
        let c0 :=
          if negb (o_convert_to o =? 0) then o_convert_to o
          else get_best_ug_codec_to_av lav (pix_fmt vid_ctx) in
        let c := if c0 =? VIDEO_CODEC_NONE then UYVY lav else c0 in
        if get_av_to_uv_conversion lav (pix_fmt vid_ctx) c then Some (desc c)
        else if sws_getContext lav then Some (desc c)
        else None
    end.

(** [vidcap_file_init]: the return value and, on [VIDCAP_INIT_OK], the
    state stored through [state]; the worker thread then stands at the
    head of its loop. *)
Definition vidcap_file_init (lav : libav) (params : vidcap_params)
  : Z * option vidcap_state_lavf_decoder :=
  let fmt := params_fmt params in
  let fullhelp := strcmp_eq fmt "fullhelp" in
  if (strlen fmt =? 0)%nat || strcmp_eq fmt "help" || fullhelp then
    (if (strlen fmt =? 0)%nat then VIDCAP_INIT_FAIL else VIDCAP_INIT_NOERR, None)
  else
    match vidcap_file_parse_fmt lav fmt with
    | None => (VIDCAP_INIT_FAIL, None)
    | Some o =>
        let '(rc, ctx) := avformat_open_input lav (o_src_filename o) in
        if rc <? 0 then (VIDCAP_INIT_FAIL, None)
        else if avformat_find_stream_info lav <? 0 then (VIDCAP_INIT_FAIL, None)
        else
          match init_audio lav (params_flags params) o with
          | None => (VIDCAP_INIT_FAIL, None)
          | Some (aidx, aframe, use) =>
              let vidx := av_find_best_stream_video lav in
              if vidx <? 0 then (VIDCAP_INIT_FAIL, None)
              else
                match streams ctx !! Z.to_nat vidx with
                | None => (VIDCAP_INIT_FAIL, None)
                | Some st =>
                    match init_video lav o st with
                    | None => (VIDCAP_INIT_FAIL, None)
                    | Some desc =>
                        (VIDCAP_INIT_OK,
                         Some {| src_filename := o_src_filename o; fmt_ctx := ctx;
                                 thread_count := o_thread_count o;
                                 thread_type := o_thread_type o;
                                 failed := false; loop := o_loop o; new_msg := false;
                                 no_decode := o_no_decode o; convert_to := o_convert_to o;
                                 paused := false; use_audio := use;
                                 video_stream_idx := vidx; audio_stream_idx := aidx;
                                 last_vid_pts := start_time st; video_desc := desc;
                                 video_frame_queue := []; max_queue_len := o_max_queue_len o;
                                 audio_frame := aframe; last_frame := 0;
                                 should_exit := false; mod_msgs := [] |})
                    end
                end
          end
    end.

(** *** The threads of one open handle

    The shared state, where the worker stands, and the events so far. *)
Record sys := {
  st : vidcap_state_lavf_decoder;
  wpc : worker_pc;
  trace : list event
}.


(** The atomic steps: the worker runs, the consumer calls
    [vidcap_file_grab], a control message arrives, or shutdown is
    requested. *)
Inductive step : sys -> sys -> Prop :=
| step_worker (i : worker_input) (x : sys) pc' s' ev :
    vidcap_file_worker i (wpc x) (st x) = (pc', s', ev) ->
    step x {| st := s'; wpc := pc'; trace := trace x ++ ev |}
| step_grab (t : Z) (x : sys) r s' ev :
    vidcap_file_grab (st x) t = (r, s', ev) ->
    step x {| st := s'; wpc := wpc x; trace := trace x ++ ev |}
| step_message (text : string) (x : sys) s' ev :
    vidcap_file_new_message text (st x) = (s', ev) ->
    step x {| st := s'; wpc := wpc x; trace := trace x ++ ev |}
| step_should_exit (x : sys) s' ev :
    vidcap_file_should_exit (st x) = (s', ev) ->
    step x {| st := s'; wpc := wpc x; trace := trace x ++ ev |}.

(** Any number of steps. *)
Inductive steps : sys -> sys -> Prop :=
| steps_refl x : steps x x
| steps_cons x y z : step x y -> steps y z -> steps x z.

End File.

(** ** Notions used to state the properties, and sample inputs *)
Module Samples.
Import Types.

(** The table entry the loop of [vidcap_init] stops at: the first one,
    in table order, whose [id] is [dev], with its index. *)
Fixpoint lookup_device (entries : list VideoCapture.vidcap_device_api) (i : Z)
    (dev : VideoCapture.vidcap_id_t) : option (Z * VideoCapture.vidcap_device_api) :=
  match entries with
  | [] => None
  | e :: rest =>
      if VideoCapture.id e =? dev then Some (i, e) else lookup_device rest (i + 1) dev
  end.

(** A backend that probes as [dev] and whose init returns [r]. *)
Definition backend (dev : Z) (name : string) (probes : bool) (r : VideoCapture.voidp)
  : VideoCapture.vidcap_device_api :=
  {| VideoCapture.id := dev;
     VideoCapture.library_name := None;
     VideoCapture.func_probe := fun _ =>
       if probes
       then Some {| VideoCapture.vt_id := dev; VideoCapture.vt_name := name;
                    VideoCapture.vt_description := name |}
       else None;
     VideoCapture.func_init := fun _ _ => r;
     VideoCapture.func_done := fun _ => tt;
     VideoCapture.func_grab := fun _ => (None, None) |}.

(** Three backends, one for each result of init. *)
Definition table3 : list VideoCapture.vidcap_device_api :=
  [ backend 1 "testcard" true (VideoCapture.StatePtr 4096);
    backend 2 "help" true VideoCapture.InitNoerrPtr;
    backend 3 "busy" true VideoCapture.NullPtr ].

Definition globals3 : VideoCapture.globals := VideoCapture.initial_globals table3.

(** A table none of whose backends is available. *)
Definition table_unavailable : list VideoCapture.vidcap_device_api :=
  [ backend 1 "testcard" false VideoCapture.NullPtr;
    backend 2 "null" false VideoCapture.NullPtr ].

(** A heap holding one wrapper whose tag has been overwritten. *)
Definition heap_bad_magic : gmap positive VideoCapture.vidcap :=
  {[ 1%positive := {| VideoCapture.state := VideoCapture.StatePtr 4096;
                      VideoCapture.index := 0; VideoCapture.magic := 0 |} ]}.

End Samples.

(** ** Sample inputs for the file backend *)
Module FileSamples.
Import Types File.

(** A 25 fps video stream with time base 1/90000 and a 48 kHz stereo
    16-bit audio stream. *)
Definition video_stream (start : Z) : AVStream :=
  {| time_base_num := 1; time_base_den := 90000; start_time := start; duration := 9000000;
     r_frame_rate_num := 25; r_frame_rate_den := 1;
     codecpar_width := 1920; codecpar_height := 1080; codecpar_codec_id := 27 |}.

Definition audio_stream : AVStream :=
  {| time_base_num := 1; time_base_den := 48000; start_time := 0; duration := 4800000;
     r_frame_rate_num := 0; r_frame_rate_den := 1;
     codecpar_width := 0; codecpar_height := 0; codecpar_codec_id := 86018 |}.

Definition movie (start : Z) : libav :=
  {| avformat_open_input := fun _ =>
       (0, {| ctx_start_time := start; streams := [video_stream start; audio_stream] |});
     avformat_find_stream_info := 0;
     av_find_best_stream_audio := 1;
     av_find_best_stream_video := 0;
     open_dec_ctx_audio :=
       Some {| bytes_per_sample := 2; ctx_sample_rate := 48000; ctx_channels := 2;
               pix_fmt := -1 |};
     open_dec_ctx_video :=
       Some {| bytes_per_sample := 0; ctx_sample_rate := 0; ctx_channels := 0; pix_fmt := 0 |};
     get_codec_from_name := fun _ => 0;
     get_av_to_ug_codec := fun _ => 0;
     get_best_ug_codec_to_av := fun _ => 2;
     get_av_to_uv_conversion := fun _ _ => true;
     sws_getContext := true;
     UYVY := 2 |}.

(** An all-zero state. *)
Definition blank : vidcap_state_lavf_decoder :=
  {| src_filename := ""; fmt_ctx := {| ctx_start_time := 0; streams := [] |};
     thread_count := 0; thread_type := 0; failed := false; loop := false; new_msg := false;
     no_decode := false; convert_to := 0; paused := false; use_audio := false;
     video_stream_idx := 0; audio_stream_idx := 0; last_vid_pts := 0;
     video_desc := {| width := 0; height := 0; color_spec := 0; fps := 0%Q;
                      interlacing := 0; tile_count := 0 |};
     video_frame_queue := []; max_queue_len := 0; audio_frame := zero_audio_frame;
     last_frame := 0; should_exit := false; mod_msgs := [] |}.

(** The state [vidcap_file_init] stores through [state], or [blank]
    when it stores none. *)
Definition opened (lav : libav) (fmt : string) (flags : Z) : vidcap_state_lavf_decoder :=
  match snd (vidcap_file_init lav {| params_fmt := fmt; params_flags := flags |}) with
  | Some s => s
  | None => blank
  end.

(** The demuxer delivers a video packet with the given time stamp, and
    the decoder a picture for it. *)
Definition video_packet (t : Z) (pixels : list byte) : worker_input :=
  {| in_read_rc := 0;
     in_pkt := {| stream_index := 0; pts := t; dts := t; pkt_data := [] |};
     in_seek_rc := 0; in_audio := []; in_video := Some pixels |}.

(** The demuxer reports the end of the stream, or a read error. *)
Definition end_of_stream (seek_rc : Z) : worker_input :=
  {| in_read_rc := AVERROR_EOF;
     in_pkt := {| stream_index := 0; pts := 0; dts := 0; pkt_data := [] |};
     in_seek_rc := seek_rc; in_audio := []; in_video := None |}.

Definition read_error (rc : Z) : worker_input :=
  {| in_read_rc := rc;
     in_pkt := {| stream_index := 0; pts := 0; dts := 0; pkt_data := [] |};
     in_seek_rc := 0; in_audio := []; in_video := None |}.

(** The state after one worker step from the head of the loop. *)
Definition worker_top (i : worker_input) (s : vidcap_state_lavf_decoder)
  : vidcap_state_lavf_decoder :=
  snd (fst (vidcap_file_worker i WTop s)).

(** Messages arrive one after the other. *)
Definition deliver (texts : list string) (s : vidcap_state_lavf_decoder)
  : vidcap_state_lavf_decoder :=
  fold_left (fun s' text => fst (vidcap_file_new_message text s')) texts s.

(** [n] "pause" messages arrive and the worker then handles its
    messages as it does at the head of its loop. *)
Definition pause_round (s : vidcap_state_lavf_decoder) (n : nat) : vidcap_state_lavf_decoder :=
  set_new_msg false (fst (vidcap_file_process_messages (deliver (repeat "pause"%string n) s))).

Definition pause_rounds (ns : list nat) (s : vidcap_state_lavf_decoder)
  : vidcap_state_lavf_decoder :=
  fold_left pause_round ns s.






(** Steps in which neither a control message arrives nor shutdown is
    requested: the worker runs or the consumer calls grab. *)
Inductive quiet_step : sys -> sys -> Prop :=
| quiet_worker (i : worker_input) (x : sys) pc' s' ev :
    vidcap_file_worker i (wpc x) (st x) = (pc', s', ev) ->
    quiet_step x {| st := s'; wpc := pc'; trace := trace x ++ ev |}
| quiet_grab (t : Z) (x : sys) r s' ev :
    vidcap_file_grab (st x) t = (r, s', ev) ->
    quiet_step x {| st := s'; wpc := wpc x; trace := trace x ++ ev |}.

Inductive quiet_steps : sys -> sys -> Prop :=
| quiet_refl x : quiet_steps x x
| quiet_cons x y z : quiet_step x y -> quiet_steps y z -> quiet_steps x z.

(** The fields one worker step may change, and how the failure flag
    and the queue may change: the flag is only ever raised, and the
    queue only ever grows by one frame at its tail, which happens only
    while it holds at most [max_queue_len] frames. *)
Definition worker_update (s s' : vidcap_state_lavf_decoder) : Prop :=
  exists f n p l q a m,
    s' = set_failed f (set_new_msg n (set_paused p (set_last_vid_pts l
           (set_video_frame_queue q (set_audio_frame a (set_mod_msgs m s))))))
    /\ (f = failed s \/ f = true)
    /\ (q = video_frame_queue s
        \/ exists out, q = simple_linked_list_append (video_frame_queue s) out
                       /\ simple_linked_list_size (video_frame_queue s) <= max_queue_len s
                       /\ should_exit s = false).

End FileSamples.

(** ** Sample audio buffers *)
Module AudioSamples.
Import Types File.



End AudioSamples.

(* ================================================================== *)
(** * Part II: theorems *)
(* ================================================================== *)

(** ** The [double] model: nearest rounding, exactness on integers below [2^53] *)
Section DoubleExact.
Import Double.
Local Open Scope Q_scope.






(** ... and never undershoots: [q < 2 ^ (ilog2 q + 1)]. *)
Lemma ilog2_lt (q : Q) : 0 < q -> q < scale2 1 (ilog2 q + 1).
Proof.
  intros Hq. unfold ilog2.
  set (e0 := (Z.log2 (Qnum q) - Z.log2 (Z.pos (Qden q)))%Z).
  destruct (Qle_bool (scale2 1 e0) q) eqn:E.
  - destruct q as [n d]. unfold Qlt in Hq. simpl in Hq.
    change (Qnum (n # d)) with n in e0. change (Qden (n # d)) with d in e0.
    assert (Hn : (0 < n)%Z) by lia.
    pose proof (Z.log2_spec n Hn) as [Hn1 Hn2].
    pose proof (Z.log2_spec (Z.pos d) (Pos2Z.is_pos d)) as [Hd1 Hd2].
    pose proof (Z.log2_nonneg n) as Hln.
    pose proof (Z.log2_nonneg (Z.pos d)) as Hld.
    unfold scale2. destruct (Z.leb_spec 0 (e0 + 1)) as [Hs | Hs].
    + unfold Qlt, Qmult, inject_Z; simpl. rewrite Z.mul_1_l, Z.mul_1_r.
      assert (Hpow : (2 ^ (e0 + 1) * 2 ^ Z.log2 (Z.pos d) = 2 ^ Z.succ (Z.log2 n))%Z).
      { rewrite <- Z.pow_add_r by lia. f_equal. unfold e0. lia. }
      assert (H0 : (0 < 2 ^ (e0 + 1))%Z) by (apply Z.pow_pos_nonneg; lia).
      assert ((2 ^ (e0 + 1) * 2 ^ Z.log2 (Z.pos d) <= 2 ^ (e0 + 1) * Z.pos d)%Z)
        by (apply Z.mul_le_mono_nonneg_l; lia).
      lia.
    + assert (Hp : (0 < 2 ^ (- (e0 + 1)))%Z) by (apply Z.pow_pos_nonneg; lia).
      assert (Hpow : (2 ^ Z.succ (Z.log2 n) * 2 ^ (- (e0 + 1)) = 2 ^ Z.log2 (Z.pos d))%Z).
      { rewrite <- Z.pow_add_r by lia. f_equal. unfold e0. lia. }
      apply Qlt_shift_div_l.
      * change 0 with (inject_Z 0). rewrite <- Zlt_Qlt. exact Hp.
      * unfold Qlt, Qmult, inject_Z; simpl. rewrite !Z.mul_1_r.
        assert ((n * 2 ^ (- (e0 + 1)) < 2 ^ Z.succ (Z.log2 n) * 2 ^ (- (e0 + 1)))%Z)
          by (apply Z.mul_lt_mono_pos_r; lia).
        lia.
  - replace (e0 - 1 + 1)%Z with e0 by lia.
    apply Qnot_le_lt. intros H. apply Qle_bool_iff in H. congruence.
Qed.

(** [rne] gives a nearest integer. *)
Lemma rne_half (x : Q) : Qabs (inject_Z (rne x) - x) <= 1 # 2.
Proof.
  unfold rne. pose proof (Qfloor_le x) as Hl. pose proof (Qlt_floor x) as Hu.
  rewrite inject_Z_plus in Hu. change (inject_Z 1) with 1 in Hu.
  set (f := Qfloor x) in *.
  apply Qabs_Qle_condition.
  destruct (Qcompare (x - inject_Z f) (1 # 2)) eqn:C.
  - apply Qeq_alt in C. destruct (Z.even f); [| rewrite inject_Z_plus; change (inject_Z 1) with 1];
      split; lra.
  - apply Qlt_alt in C. split; lra.
  - apply Qgt_alt in C. rewrite inject_Z_plus. change (inject_Z 1) with 1. split; lra.
Qed.

Lemma rne_comp (x y : Q) : x == y -> rne x = rne y.
Proof.
  intros H. unfold rne. rewrite (Qfloor_comp x y H).
  assert (Hc : (x - inject_Z (Qfloor y) ?= 1 # 2) = (y - inject_Z (Qfloor y) ?= 1 # 2))
    by (now rewrite H).
  now rewrite Hc.
Qed.

Lemma scale2_pos (s : Z) : 0 < scale2 1 s.
Proof.
  unfold scale2. destruct (Z.leb_spec 0 s).
  - rewrite Qmult_1_l. change 0 with (inject_Z 0). rewrite <- Zlt_Qlt.
    apply Z.pow_pos_nonneg; lia.
  - apply Qlt_shift_div_l; [| lra].
    change 0 with (inject_Z 0). rewrite <- Zlt_Qlt. apply Z.pow_pos_nonneg; lia.
Qed.

Lemma scale2_mul (q : Q) (s : Z) : scale2 q s == q * scale2 1 s.
Proof.
  unfold scale2. destruct (Z.leb_spec 0 s); [ring |].
  assert (0 < inject_Z (2 ^ (- s))).
  { change 0 with (inject_Z 0). rewrite <- Zlt_Qlt. apply Z.pow_pos_nonneg; lia. }
  field. lra.
Qed.

Lemma scale2_opp (s : Z) : scale2 1 s * scale2 1 (- s) == 1.
Proof.
  unfold scale2. destruct (Z.leb_spec 0 s), (Z.leb_spec 0 (- s)).
  - assert (s = 0%Z) by lia. subst. reflexivity.
  - rewrite Z.opp_involutive.
    assert (0 < inject_Z (2 ^ s)).
    { change 0 with (inject_Z 0). rewrite <- Zlt_Qlt. apply Z.pow_pos_nonneg; lia. }
    field. lra.
  - assert (0 < inject_Z (2 ^ (- s))).
    { change 0 with (inject_Z 0). rewrite <- Zlt_Qlt. apply Z.pow_pos_nonneg; lia. }
    field. lra.
  - lia.
Qed.

(** Rounding moves a value by at most half a unit in the last place. *)
Lemma round64_nearest (q : Q) :
  ~ q == 0 ->
  Qabs (round64 q - q) <= (1 # 2) * scale2 1 (ilog2 (Qabs q) - 52).
Proof.
  intros Hq. unfold round64.
  destruct (Qeq_bool q 0) eqn:E; [apply Qeq_bool_iff in E; contradiction |].
  set (e := ilog2 (Qabs q)). set (s := (52 - e)%Z).
  replace (e - 52)%Z with (- s)%Z by (unfold s; lia).
  rewrite Qred_correct.
  rewrite (rne_comp _ _ (scale2_mul q s)).
  rewrite (scale2_mul (inject_Z _) (- s)).
  set (P := scale2 1 s). set (P' := scale2 1 (- s)).
  assert (HP : P * P' == 1) by apply scale2_opp.
  assert (HP' : 0 < P') by apply scale2_pos.
  pose proof (rne_half (q * P)) as Hr.
  assert (Heq : inject_Z (rne (q * P)) * P' - q == (inject_Z (rne (q * P)) - q * P) * P').
  { transitivity (inject_Z (rne (q * P)) * P' - q * (P * P')); [rewrite HP |]; ring. }
  rewrite Heq, Qabs_Qmult, (Qabs_pos P') by lra.
  apply Qmult_le_compat_r; [exact Hr | lra].
Qed.









(** The model agrees with the machine's binary64 arithmetic: inexact
    quotients, sums and products, and integers above [2^53] (ties go
    to the even significand). *)
Example round64_binary64 :
  of_float (1 / 3)%float = Some (div 1 3)
  /\ of_float (0x1.999999999999ap-4 + 0x1.999999999999ap-3)%float
     = Some (add (round64 (1 # 10)) (round64 (2 # 10)))
  /\ of_float (0x1.999999999999ap-4 * 0x1.999999999999ap-4)%float
     = Some (mul (round64 (1 # 10)) (round64 (1 # 10)))
  /\ of_float (PrimFloat.of_uint63 (Uint63.of_Z 9007199254740993)) = Some (of_Z 9007199254740993)
  /\ of_float (PrimFloat.of_uint63 (Uint63.of_Z 9007199254740995)) = Some (of_Z 9007199254740995)
  /\ of_Z 9007199254740993 = inject_Z 9007199254740992
  /\ of_Z 9007199254740995 = inject_Z 9007199254740996
  /\ of_float (PrimFloat.of_uint63 (Uint63.of_Z 450000) + 2 * 90000 / 1)%float
     = Some (add (of_Z 450000) (div (mul 2 (of_Z 90000)) 1)).
Proof. repeat split; vm_compute; reflexivity. Qed.

End DoubleExact.

(** ** [vidcap_init] *)
Section VidcapInit.
Import VideoCapture Samples.

Lemma malloc_fresh (h : gmap positive vidcap) : h !! malloc h = None.
Proof. apply not_elem_of_dom. unfold malloc. apply is_fresh. Qed.

Lemma free_malloc (h : gmap positive vidcap) (d : vidcap) :
  delete (malloc h) (<[malloc h := d]> h) = h.
Proof. apply delete_insert_id, malloc_fresh. Qed.

(** What the loop of [vidcap_init] returns, by the entry it stops at. *)
Lemma vidcap_init_from_spec (entries : list vidcap_device_api) :
  forall (i : Z) (h : gmap positive vidcap) (slot : option positive)
         (dev : vidcap_id_t) (fmt : string) (flags : Z),
    vidcap_init_from entries i h slot dev fmt flags =
    match lookup_device entries i dev with
    | None => (-1, h, slot)
    | Some (k, e) =>
        match func_init e fmt flags with
        | NullPtr => (-1, h, slot)
        | InitNoerrPtr => (1, h, slot)
        | StatePtr a =>
            (0, <[malloc h := {| state := StatePtr a; index := k; magic := VIDCAP_MAGIC |}]> h,
             Some (malloc h))
        end
    end.
Proof.
  induction entries as [| e rest IH]; intros i h slot dev fmt flags; simpl.
  - reflexivity.
  - destruct (id e =? dev) eqn:E.
    + destruct (func_init e fmt flags) eqn:F; rewrite ?free_malloc; reflexivity.
    + apply IH.
Qed.

Lemma lookup_device_none (entries : list vidcap_device_api) :
  forall (i : Z) (dev : vidcap_id_t),
    Forall (fun e => id e <> dev) entries -> lookup_device entries i dev = None.
Proof.
  induction entries as [| e rest IH]; intros i dev H; [reflexivity |].
  inversion H as [| ? ? He Hrest]; subst. simpl.
  destruct (Z.eqb_spec (id e) dev); [contradiction | now apply IH].
Qed.

End VidcapInit.

Section VidcapInitClaims.
Import VideoCapture Samples.

(** C3. [vidcap_init] has three outcomes, decided by the first table
    entry whose identity matches and by what its init returns: a real
    state gives 0 (OK) and the caller's slot receives the new handle,
    whose wrapper carries that state, the entry's index and the magic
    tag; the no-error sentinel gives 1 (NOERR) and no state gives -1
    (FAIL), the slot keeping its content in both cases; an identity
    that no table entry carries gives -1 with the slot untouched.  Hence
    0 is returned exactly when init produced a real state. *)
Theorem vidcap_init_three_outcomes
    (g : globals) (h : gmap positive vidcap) (slot : option positive)
    (dev : vidcap_id_t) (fmt : string) (flags : Z)
    (rc : Z) (h' : gmap positive vidcap) (slot' : option positive) :
  vidcap_init g h slot dev fmt flags = (rc, h', slot') ->
  match lookup_device (vidcap_device_table g) 0 dev with
  | None => rc = -1 /\ slot' = slot
  | Some (k, e) =>
      match func_init e fmt flags with
      | StatePtr a =>
          rc = 0 /\
          exists d, slot' = Some d /\
            h' !! d = Some {| state := StatePtr a; index := k; magic := VIDCAP_MAGIC |}
      | InitNoerrPtr => rc = 1 /\ slot' = slot
      | NullPtr => rc = -1 /\ slot' = slot
      end
  end
  /\ (rc = 0 <->
      exists k e a, lookup_device (vidcap_device_table g) 0 dev = Some (k, e)
                    /\ func_init e fmt flags = StatePtr a)
  /\ (Forall (fun e => id e <> dev) (vidcap_device_table g) -> rc = -1 /\ slot' = slot).
Proof.
  unfold vidcap_init. rewrite vidcap_init_from_spec. intros H.
  pose proof (lookup_device_none (vidcap_device_table g) 0 dev) as Hnone.
  destruct (lookup_device (vidcap_device_table g) 0 dev) as [[k e] |].
  - assert (Hin : Forall (fun e => id e <> dev) (vidcap_device_table g) ->
                  rc = -1 /\ slot' = slot)
      by (intros Hall; specialize (Hnone Hall); discriminate).
    destruct (func_init e fmt flags) as [| | a] eqn:F; inversion H; subst; clear H.
    + split; [auto |]. split; [| exact Hin]. split; [discriminate |].
      intros (k' & e' & a' & E & F'). inversion E; subst. congruence.
    + split; [auto |]. split; [| exact Hin]. split; [discriminate |].
      intros (k' & e' & a' & E & F'). inversion E; subst. congruence.
    + split; [| split; [| exact Hin]].
      * split; [reflexivity |]. exists (malloc h). split; [reflexivity |].
        apply lookup_insert_eq.
      * split; [| reflexivity]. intros _. exists k, e, a. auto.
  - inversion H; subst; clear H. split; [auto |]. split; [| auto].
    split; [discriminate |]. intros (k' & e' & a' & E & _). discriminate.
Qed.

Lemma vidcap_init_three_outcomes_witness :
  vidcap_init globals3 ∅ None 2 "help" 0 = (1, ∅, None)
  /\ (1 = 1 /\ @None positive = None)
  /\ (1 = 0 <->
      exists k e a, lookup_device (vidcap_device_table globals3) 0 2 = Some (k, e)
                    /\ func_init e "help" 0 = StatePtr a)
  /\ (Forall (fun e => id e <> 2) (vidcap_device_table globals3) ->
      1 = -1 /\ @None positive = None).
Proof.
  split; [reflexivity |].
  exact (vidcap_init_three_outcomes globals3 ∅ None 2 "help" 0 1 ∅ None eq_refl).
Defined.

(** C10. [vidcap_init] writes the caller's slot only when it returns 0
    (OK).  On every other return (unknown identity, init returning no
    state, init returning the no-error sentinel) the slot keeps its
    content and the heap is as before the call: the wrapper allocated
    for the attempt has been freed.  On 0 the slot holds the address
    of a newly allocated wrapper, the only change to the heap. *)
Theorem vidcap_init_frame
    (g : globals) (h : gmap positive vidcap) (slot : option positive)
    (dev : vidcap_id_t) (fmt : string) (flags : Z)
    (rc : Z) (h' : gmap positive vidcap) (slot' : option positive) :
  vidcap_init g h slot dev fmt flags = (rc, h', slot') ->
  (rc = 0 \/ rc = 1 \/ rc = -1)
  /\ (rc <> 0 -> slot' = slot /\ h' = h)
  /\ (rc = 0 ->
      exists d w, h !! d = None /\ slot' = Some d /\ h' = <[d := w]> h
                  /\ magic w = VIDCAP_MAGIC).
Proof.
  unfold vidcap_init. rewrite vidcap_init_from_spec. intros H.
  destruct (lookup_device (vidcap_device_table g) 0 dev) as [[k e] |].
  - destruct (func_init e fmt flags) as [| | a] eqn:F; inversion H; subst; clear H.
    + repeat split; auto; discriminate.
    + repeat split; auto; discriminate.
    + split; [auto |]. split; [intros N; now contradiction N |]. intros _.
      eexists _, _. split; [apply malloc_fresh |]. split; [reflexivity |].
      split; reflexivity.
  - inversion H; subst; clear H. repeat split; auto; discriminate.
Qed.

Lemma vidcap_init_frame_witness :
  vidcap_init globals3 ∅ (Some 7%positive) 3 "busy" 0 = (-1, ∅, Some 7%positive)
  /\ (-1 = 0 \/ -1 = 1 \/ -1 = -1)
  /\ (-1 <> 0 -> Some 7%positive = Some 7%positive /\ (∅ : gmap positive vidcap) = ∅)
  /\ (-1 = 0 ->
      exists d w, (∅ : gmap positive vidcap) !! d = None /\ Some 7%positive = Some d
                  /\ ∅ = <[d := w]> (∅ : gmap positive vidcap)
                  /\ magic w = VIDCAP_MAGIC).
Proof.
  split; [reflexivity |].
  exact (vidcap_init_frame globals3 ∅ (Some 7%positive) 3 "busy" 0 (-1) ∅
           (Some 7%positive) eq_refl).
Defined.

End VidcapInitClaims.

(** ** Misuse of the registry and of handles *)
Section Misuse.
Import Types VideoCapture Samples.

Lemma vidcap_init_devices_count (g g' : globals) (n : Z) :
  vidcap_init_devices g = Ret (n, g') -> n = available_device_count g'.
Proof.
  unfold vidcap_init_devices.
  destruct (negb (available_device_count g =? 0)); [discriminate |].
  intros H. inversion H. reflexivity.
Qed.

(** C8, as stated, fails in two places.  A second probing pass after a
    first one that registered no device passes the assertion and
    returns; and a negative index passes the only bound that
    [vidcap_get_device_details] asserts, the array then being read
    before its first element. *)
Lemma misuse_not_always_asserted :
  (exists g1,
      vidcap_init_devices (initial_globals table_unavailable) = Ret (0, g1)
      /\ vidcap_init_devices g1 = Ret (0, g1)
      /\ vidcap_init_devices g1 <> AssertFail)
  /\ (exists g1,
         vidcap_init_devices globals3 = Ret (3, g1)
         /\ ~ (0 <= -1 < vidcap_get_device_count g1)
         /\ vidcap_get_device_details g1 (-1) = Undefined
         /\ vidcap_get_device_details g1 (-1) <> AssertFail).
Proof.
  split.
  - eexists. split; [reflexivity |]. split; [reflexivity | discriminate].
  - eexists. split; [reflexivity |]. split; [simpl; lia |].
    split; [reflexivity | discriminate].
Qed.

(** C8, amended.  Probing while the registry holds at least one device
    fails the assertion, so a second pass after a first one that
    registered a device aborts, while a pass after a teardown does not;
    [vidcap_get_device_details] with an index at or above the device
    count fails the assertion; [vidcap_done] and [vidcap_grab] on a
    handle whose tag differs from [VIDCAP_MAGIC] fail the assertion. *)
Theorem misuse_asserts :
  (forall g : globals,
      available_device_count g <> 0 -> vidcap_init_devices g = AssertFail)
  /\ (forall (g g' : globals) (n : Z),
         vidcap_init_devices g = Ret (n, g') -> n <> 0 ->
         vidcap_init_devices g' = AssertFail
         /\ vidcap_init_devices (vidcap_free_devices g') <> AssertFail)
  /\ (forall (g : globals) (idx : Z),
         vidcap_get_device_count g <= idx ->
         vidcap_get_device_details g idx = AssertFail)
  /\ (forall (g : globals) (h : gmap positive vidcap) (a : positive) (d : vidcap),
         h !! a = Some d -> magic d <> VIDCAP_MAGIC ->
         vidcap_done g h a = AssertFail /\ vidcap_grab g h a = AssertFail).
Proof.
  assert (H1 : forall g : globals,
             available_device_count g <> 0 -> vidcap_init_devices g = AssertFail).
  { intros g Hc. unfold vidcap_init_devices.
    destruct (Z.eqb_spec (available_device_count g) 0); [contradiction | reflexivity]. }
  split; [exact H1 |]. split; [| split].
  - intros g g' n Hi Hn. apply vidcap_init_devices_count in Hi. subst n.
    split; [now apply H1 |]. unfold vidcap_init_devices. simpl. discriminate.
  - intros g idx Hi. unfold vidcap_get_device_details, vidcap_get_device_count in *.
    destruct (Z.ltb_spec idx (available_device_count g)); [lia | reflexivity].
  - intros g h a d Ha Hm. unfold vidcap_done, vidcap_grab. rewrite Ha.
    destruct (Z.eqb_spec (magic d) VIDCAP_MAGIC); [contradiction | split; reflexivity].
Qed.

Lemma misuse_asserts_witness :
  (exists g1,
      vidcap_init_devices globals3 = Ret (3, g1)
      /\ vidcap_init_devices g1 = AssertFail
      /\ vidcap_get_device_details g1 3 = AssertFail)
  /\ vidcap_done globals3 heap_bad_magic 1%positive = AssertFail
  /\ vidcap_grab globals3 heap_bad_magic 1%positive = AssertFail.
Proof.
  destruct misuse_asserts as (_ & H2 & H3 & H4).
  split.
  - eexists. split; [reflexivity |]. split.
    + refine (proj1 (H2 globals3 _ 3 eq_refl _)). discriminate.
    + apply H3. simpl. lia.
  - refine (H4 globals3 heap_bad_magic 1%positive _ eq_refl _). discriminate.
Defined.

End Misuse.

(** ** Control messages *)
Section Messages.
Import Types CLib File FileSamples.
Local Open Scope string_scope.

Lemma process_message_pause (s : vidcap_state_lavf_decoder) :
  process_message s "pause" = (set_paused (negb (paused s)) s, [EvResponse RESPONSE_OK]).
Proof. reflexivity. Qed.

Lemma process_pauses (n : nat) :
  forall s : vidcap_state_lavf_decoder,
    let s' := fst (process_message_list (repeat "pause" n) s) in
    paused s' = (if Nat.even n then paused s else negb (paused s))
    /\ mod_msgs s' = mod_msgs s.
Proof.
  induction n as [| n IH]; intros s.
  - simpl. auto.
  - change (repeat "pause" (S n)) with ("pause" :: repeat "pause" n).
    cbn [process_message_list]. rewrite process_message_pause.
    specialize (IH (set_paused (negb (paused s)) s)).
    destruct (process_message_list (repeat "pause" n) _) as [s2 ev2].
    cbn [fst] in IH |- *. destruct IH as [IH1 IH2]. rewrite IH1, IH2.
    rewrite Nat.even_succ, <- Nat.negb_even. simpl.
    destruct (Nat.even n), (paused s); auto.
Qed.

Lemma deliver_msgs (texts : list string) :
  forall s : vidcap_state_lavf_decoder,
    mod_msgs (deliver texts s) = (mod_msgs s ++ texts)%list
    /\ paused (deliver texts s) = paused s.
Proof.
  induction texts as [| t rest IH]; intros s.
  - simpl. now rewrite app_nil_r.
  - change (deliver (t :: rest) s)
      with (deliver rest (set_new_msg true (set_mod_msgs (mod_msgs s ++ [t])%list s))).
    destruct (IH (set_new_msg true (set_mod_msgs (mod_msgs s ++ [t])%list s))) as [H1 H2].
    rewrite H1, H2. simpl. now rewrite <- app_assoc.
Qed.

Lemma pause_round_spec (s : vidcap_state_lavf_decoder) (n : nat) :
  mod_msgs s = [] ->
  paused (pause_round s n) = (if Nat.even n then paused s else negb (paused s))
  /\ mod_msgs (pause_round s n) = [].
Proof.
  intros Hm. unfold pause_round, vidcap_file_process_messages.
  destruct (deliver_msgs (repeat "pause" n) s) as [D1 D2].
  rewrite D1, Hm. simpl app.
  destruct (process_pauses n (set_mod_msgs [] (deliver (repeat "pause" n) s))) as [P1 P2].
  simpl in P1, P2 |- *. rewrite P1, P2, D2. auto.
Qed.

(** C9. Each "pause" message flips the paused flag: when the pending
    messages of the worker are [n] "pause" messages, handling them
    leaves the flag as it was if [n] is even and inverted if [n] is
    odd; and the same holds for the total number of "pause" messages
    over any number of later rounds of arrival and handling. *)
Theorem pause_toggles (s : vidcap_state_lavf_decoder) (n : nat) :
  mod_msgs s = repeat "pause" n ->
  let s' := fst (vidcap_file_process_messages s) in
  paused s' = (if Nat.even n then paused s else negb (paused s))
  /\ forall ns : list nat,
       paused (pause_rounds ns s')
       = (if Nat.even (list_sum ns) then paused s' else negb (paused s')).
Proof.
  intros Hm. unfold vidcap_file_process_messages. rewrite Hm.
  destruct (process_pauses n (set_mod_msgs [] s)) as [P1 P2].
  simpl in P1, P2 |- *. split; [exact P1 |].
  set (s' := fst (process_message_list (repeat "pause" n) (set_mod_msgs [] s))) in *.
  clearbody s'. clear P1 Hm. intros ns. revert s' P2.
  induction ns as [| k ns IH]; intros s' P2; [reflexivity |].
  simpl. destruct (pause_round_spec s' k P2) as [R1 R2].
  unfold pause_rounds in *. simpl. rewrite (IH _ R2), R1.
  rewrite Nat.even_add. destruct (Nat.even k), (Nat.even (list_sum ns)), (paused s'); reflexivity.
Qed.

Lemma pause_toggles_witness :
  mod_msgs (deliver ["pause"; "pause"; "pause"] (opened (movie 0) "movie.mkv" 0))
  = repeat "pause" 3
  /\ paused (fst (vidcap_file_process_messages
                    (deliver ["pause"; "pause"; "pause"] (opened (movie 0) "movie.mkv" 0))))
     = true.
Proof.
  split; [reflexivity |].
  exact (proj1 (pause_toggles
                  (deliver ["pause"; "pause"; "pause"] (opened (movie 0) "movie.mkv" 0))
                  3 eq_refl)).
Defined.

End Messages.

(** ** Counts written in decimal *)
Section Decimal.
Import Types CLib File FileSamples.
Local Open Scope string_scope.







End Decimal.

Section Seek.
Import Types CLib File FileSamples.
Local Open Scope string_scope.




End Seek.

Section SeekClaim.
Import Types CLib File FileSamples.
Local Open Scope string_scope.



End SeekClaim.

(** ** The audio slicer *)
Section AudioSlicer.
Import Types File AudioSamples.

(** The rounding model agrees with the machine's binary64 arithmetic on
    the constant and on the quotients used below. *)
Example AUDIO_RATIO_binary64 :
  Double.of_float 0x1.0cccccccccccdp+0%float = Some AUDIO_RATIO.
Proof. vm_compute. reflexivity. Qed.

Example samples_per_frame_binary64 :
  Double.of_float (0x1.0cccccccccccdp+0 * 48000 / 25)%float
  = Some (Double.div (Double.mul AUDIO_RATIO (Double.of_Z 48000)) (Double.of_Z 25))
  /\ Double.of_float (0x1.0cccccccccccdp+0 * 44100 / 25)%float
     = Some (Double.div (Double.mul AUDIO_RATIO (Double.of_Z 44100)) (Double.of_Z 25)).
Proof. split; vm_compute; reflexivity. Qed.




End AudioSlicer.

(** ** The worker and the consumer *)
Section WorkerShape.
Import Types CLib File FileSamples.

Lemma set_paused_twice (b b' : bool) (s : vidcap_state_lavf_decoder) :
  set_paused b' (set_paused b s) = set_paused b' s.
Proof. destruct s; reflexivity. Qed.

Lemma set_paused_same (s : vidcap_state_lavf_decoder) : set_paused (paused s) s = s.
Proof. destruct s; reflexivity. Qed.

(** A message changes nothing but the paused flag. *)
Lemma process_message_state (s : vidcap_state_lavf_decoder) (text : string) :
  exists b, fst (process_message s text) = set_paused b s.
Proof.
  unfold process_message.
  destruct (strstr text "seek ").
  - exists (paused s). rewrite set_paused_same.
    destruct (streams (fmt_ctx s) !! Z.to_nat (video_stream_idx s)); reflexivity.
  - destruct (strcmp_eq text "pause"); [eexists; reflexivity |].
    exists (paused s). rewrite set_paused_same.
    destruct (strcmp_eq text "quit"); reflexivity.
Qed.

Lemma process_message_list_state (msgs : list string) :
  forall s : vidcap_state_lavf_decoder,
    exists b, fst (process_message_list msgs s) = set_paused b s.
Proof.
  induction msgs as [| m rest IH]; intros s; simpl.
  - exists (paused s). now rewrite set_paused_same.
  - destruct (process_message_state s m) as [b Hb].
    destruct (process_message s m) as [s1 ev1]. simpl in Hb. subst s1.
    destruct (IH (set_paused b s)) as [b' Hb'].
    destruct (process_message_list rest (set_paused b s)) as [s2 ev2]. simpl in Hb' |- *.
    exists b'. now rewrite Hb', set_paused_twice.
Qed.

Lemma process_messages_state (s : vidcap_state_lavf_decoder) :
  exists b, fst (vidcap_file_process_messages s) = set_paused b (set_mod_msgs [] s).
Proof. apply process_message_list_state. Qed.

Lemma set_audio_frame_twice (a a' : Types.audio_frame) (s : vidcap_state_lavf_decoder) :
  set_audio_frame a' (set_audio_frame a s) = set_audio_frame a' s.
Proof. destruct s; reflexivity. Qed.

Lemma write_audio_state (s : vidcap_state_lavf_decoder) (c : audio_chunk) :
  exists a, vidcap_file_write_audio s c = set_audio_frame a s.
Proof.
  unfold vidcap_file_write_audio.
  destruct (ac_is_double c); [exists (audio_frame s); destruct s; reflexivity |].
  destruct (ac_planar c); [| eexists; reflexivity].
  destruct (_ >? _); [exists (audio_frame s); destruct s; reflexivity | eexists; reflexivity].
Qed.

Lemma write_audio_list_state (chunks : list audio_chunk) :
  forall s : vidcap_state_lavf_decoder,
    exists a, fold_left vidcap_file_write_audio chunks s = set_audio_frame a s.
Proof.
  induction chunks as [| c rest IH]; intros s; simpl.
  - exists (audio_frame s). destruct s; reflexivity.
  - destruct (write_audio_state s c) as [a Ha]. rewrite Ha.
    destruct (IH (set_audio_frame a s)) as [a' Ha']. rewrite Ha', set_audio_frame_twice.
    now exists a'.
Qed.

End WorkerShape.

Section WorkerSteps.
Import Types CLib File FileSamples.

Lemma worker_update_refl (s : vidcap_state_lavf_decoder) : worker_update s s.
Proof.
  exists (failed s), (new_msg s), (paused s), (last_vid_pts s), (video_frame_queue s),
    (audio_frame s), (mod_msgs s).
  split; [destruct s; reflexivity | auto].
Qed.

Ltac unfold_setters :=
  cbv [set_failed set_new_msg set_paused set_last_vid_pts set_video_frame_queue
       set_audio_frame set_last_frame set_should_exit set_mod_msgs
       src_filename fmt_ctx thread_count thread_type failed loop new_msg no_decode
       convert_to paused use_audio video_stream_idx audio_stream_idx last_vid_pts
       video_desc video_frame_queue max_queue_len audio_frame last_frame should_exit
       mod_msgs].

Ltac shape_eq := unfold_setters; reflexivity.

Ltac shape_same :=
  eexists _, _, _, _, _, _, _;
  split; [shape_eq | split; [auto | left; reflexivity]].

Lemma worker_paused_shape (s : vidcap_state_lavf_decoder) (ev : list event) :
  snd (fst (worker_paused s ev)) = s.
Proof.
  unfold worker_paused. destruct (negb (should_exit s) && negb (new_msg s)); [reflexivity |].
  destruct (should_exit s); reflexivity.
Qed.

Lemma worker_enqueue_shape (s : vidcap_state_lavf_decoder) (out : video_frame)
    (ev : list event) :
  snd (fst (worker_enqueue s out ev)) = s
  \/ (snd (fst (worker_enqueue s out ev))
      = set_video_frame_queue (simple_linked_list_append (video_frame_queue s) out) s
      /\ simple_linked_list_size (video_frame_queue s) <= max_queue_len s
      /\ should_exit s = false).
Proof.
  unfold worker_enqueue.
  destruct (should_exit s) eqn:E; simpl; [left; reflexivity |].
  destruct (Z.gtb_spec (simple_linked_list_size (video_frame_queue s)) (max_queue_len s));
    simpl; [left; reflexivity | right; auto].
Qed.

Lemma worker_shape (i : worker_input) (pc : worker_pc) (s : vidcap_state_lavf_decoder) :
  worker_update s (snd (fst (vidcap_file_worker i pc s))).
Proof.
  destruct pc as [| | out |]; simpl.
  - destruct (should_exit s) eqn:Ex; [apply worker_update_refl |].
    assert (Hm : exists s1 ev,
               (if new_msg s
                then let '(s', ev') := vidcap_file_process_messages s in
                     (set_new_msg false s', ev')
                else (s, [])) = (s1, ev)
               /\ exists n p m, s1 = set_new_msg n (set_paused p (set_mod_msgs m s))).
    { destruct (new_msg s) eqn:En.
      - destruct (process_messages_state s) as [b Hb].
        destruct (vidcap_file_process_messages s) as [s' ev']. simpl in Hb. subst s'.
        eexists _, _. split; [reflexivity |]. eexists _, _, _. reflexivity.
      - eexists _, _. split; [reflexivity |].
        exists (new_msg s), (paused s), (mod_msgs s). destruct s; reflexivity. }
    destruct Hm as (s1 & ev & -> & n & p & m & ->).
    set (s1 := set_new_msg n (set_paused p (set_mod_msgs m s))).
    destruct (paused s1).
    { rewrite worker_paused_shape. subst s1. destruct s; shape_same. }
    unfold worker_read.
    destruct (in_read_rc i =? AVERROR_EOF).
    { destruct (loop s1).
      - destruct (in_seek_rc i <? 0); simpl; subst s1; destruct s;
          eexists _, _, _, _, _, _, _;
          (split; [shape_eq | split; [auto | left; reflexivity]]).
      - simpl. subst s1. destruct s; shape_same. }
    destruct (in_read_rc i <? 0).
    { simpl. subst s1. destruct s.
      eexists _, _, _, _, _, _, _.
      split; [shape_eq | split; [auto | left; reflexivity]]. }
    destruct (stream_index (in_pkt i) =? audio_stream_idx s1).
    { simpl. destruct (write_audio_list_state (in_audio i) s1) as [a ->].
      subst s1. destruct s; shape_same. }
    destruct (stream_index (in_pkt i) =? video_stream_idx s1); simpl;
      [| subst s1; destruct s; shape_same].
    set (l := if pts (in_pkt i) =? AV_NOPTS_VALUE then dts (in_pkt i) else pts (in_pkt i)).
    set (s2 := set_last_vid_pts l s1).
    assert (Hex2 : should_exit s2 = should_exit s)
      by (unfold s2, s1; destruct s; reflexivity).
    assert (Hq2 : video_frame_queue s2 = video_frame_queue s)
      by (unfold s2, s1; destruct s; reflexivity).
    assert (Hmax2 : max_queue_len s2 = max_queue_len s)
      by (unfold s2, s1; destruct s; reflexivity).
    assert (Henq : forall out ev',
               worker_update s (snd (fst (worker_enqueue s2 out ev')))).
    { intros out ev'.
      destruct (worker_enqueue_shape s2 out ev') as [-> | (-> & Hsz & Hse)].
      - subst s2 s1. destruct s; shape_same.
      - rewrite Hq2, Hmax2 in Hsz. rewrite Hex2 in Hse. rewrite Hq2.
        subst s2 s1. destruct s.
        eexists _, _, _, _, _, _, _.
        split; [shape_eq | split; [auto |]].
        right. eexists. split; [reflexivity | auto]. }
    destruct (no_decode _); [apply Henq |].
    destruct (in_video i); [apply Henq |].
    simpl. subst s2 s1. destruct s; shape_same.
  - rewrite worker_paused_shape. apply worker_update_refl.
  - destruct (worker_enqueue_shape s out []) as [-> | (-> & Hsz & Hse)].
    + apply worker_update_refl.
    + destruct s.
      eexists _, _, _, _, _, _, _.
      split; [shape_eq | split; [auto |]].
      right. eexists. split; [reflexivity | auto].
  - apply worker_update_refl.
Qed.

End WorkerSteps.

Section Grab.
Import Types CLib File FileSamples.

Lemma grab_blocks (s : vidcap_state_lavf_decoder) (t : Z) :
  video_frame_queue s = [] -> failed s = false -> should_exit s = false ->
  vidcap_file_grab s t = (GrabBlocked, s, []).
Proof. intros Hq Hf He. unfold vidcap_file_grab. now rewrite Hq, Hf, He. Qed.

Lemma grab_null (s : vidcap_state_lavf_decoder) (t : Z) :
  failed s = true \/ should_exit s = true ->
  vidcap_file_grab s t = (GrabRet None None, s, []).
Proof.
  intros H. unfold vidcap_file_grab.
  destruct (failed s), (should_exit s); destruct H; try discriminate;
    rewrite ?Bool.andb_false_r; reflexivity.
Qed.

Lemma grab_pops (s : vidcap_state_lavf_decoder) (t : Z) (f : video_frame)
    (q : list video_frame) :
  video_frame_queue s = f :: q -> failed s = false -> should_exit s = false ->
  vidcap_file_grab s t
  = (GrabRet (Some f) (Some (fst (get_audio (set_video_frame_queue q s) (fps (vf_desc f))))),
     set_last_frame t (snd (get_audio (set_video_frame_queue q s) (fps (vf_desc f)))),
     [EvSignal frame_consumed]).
Proof.
  intros Hq Hf He. unfold vidcap_file_grab. rewrite Hq, Hf, He. reflexivity.
Qed.

(** What a grab call leaves of the state: all of it when it blocks or
    returns no frame, and otherwise all but the head of the queue, the
    audio buffer and the time of the last frame. *)
Lemma grab_state (s : vidcap_state_lavf_decoder) (t : Z) :
  snd (fst (vidcap_file_grab s t)) = s
  \/ exists f q a,
       video_frame_queue s = f :: q /\ failed s = false /\ should_exit s = false
       /\ snd (fst (vidcap_file_grab s t))
          = set_last_frame t (set_audio_frame a (set_video_frame_queue q s)).
Proof.
  destruct (failed s) eqn:Hf; [left; rewrite grab_null; auto |].
  destruct (should_exit s) eqn:He; [left; rewrite grab_null; auto |].
  destruct (video_frame_queue s) as [| f q] eqn:Hq; [left; rewrite grab_blocks; auto |].
  right. exists f, q. eexists. repeat split. rewrite (grab_pops s t f q Hq Hf He).
  unfold get_audio. cbn [fst snd]. destruct s; reflexivity.
Qed.

Lemma step_failed (x y : sys) : step x y -> failed (st x) = true -> failed (st y) = true.
Proof.
  intros Hs Hf. destruct Hs as [i x pc' s' ev Hw | t x r s' ev Hg | text x s' ev Hm | x s' ev He];
    cbn [st].
  - pose proof (worker_shape i (wpc x) (st x)) as Hu. rewrite Hw in Hu. cbn [fst snd] in Hu.
    destruct Hu as (f & n & p & l & q & a & m & -> & [-> | ->] & _);
      destruct (st x); simpl in *; auto.
  - destruct (grab_state (st x) t) as [Hs | (f & q & a & _ & Hf' & _)].
    + rewrite Hg in Hs. simpl in Hs. now subst s'.
    + congruence.
  - unfold vidcap_file_new_message in Hm. inversion Hm; subst. destruct (st x); auto.
  - unfold vidcap_file_should_exit in He. inversion He; subst. destruct (st x); auto.
Qed.

Lemma steps_failed (x y : sys) : steps x y -> failed (st x) = true -> failed (st y) = true.
Proof. induction 1; eauto using step_failed. Qed.

(** C5. [vidcap_file_grab]: (1) with an empty queue, the worker not
    failed and no exit requested, it waits on [new_frame_ready]; (2)
    when the worker has failed or exit is requested it returns no
    frame and no audio and leaves the queue as it is; (3) otherwise it
    returns the head of the queue, removes it and signals
    [frame_consumed]; (4) the worker adds frames at the tail only, so
    frames leave in the order they were queued; (5) on a read error
    other than end of stream the worker sets [failed], signals
    [new_frame_ready] and returns, (6) and so it does when, in loop mode,
    the seek back to the start fails; (7) once [failed] is set it stays
    set whatever happens next, and every grab call returns no
    frame. *)
Theorem grab_contract :
  (forall (s : vidcap_state_lavf_decoder) (t : Z),
      video_frame_queue s = [] -> failed s = false -> should_exit s = false ->
      vidcap_file_grab s t = (GrabBlocked, s, []))
  /\ (forall (s : vidcap_state_lavf_decoder) (t : Z),
         failed s = true \/ should_exit s = true ->
         vidcap_file_grab s t = (GrabRet None None, s, []))
  /\ (forall (s : vidcap_state_lavf_decoder) (t : Z) (f : video_frame)
             (q : list video_frame),
         video_frame_queue s = f :: q -> failed s = false -> should_exit s = false ->
         exists a s',
           vidcap_file_grab s t
           = (GrabRet (Some f) (Some a), s', [EvSignal frame_consumed])
           /\ video_frame_queue s' = q)
  /\ (forall (i : worker_input) (pc : worker_pc) (s : vidcap_state_lavf_decoder),
         let s' := snd (fst (vidcap_file_worker i pc s)) in
         video_frame_queue s' = video_frame_queue s
         \/ exists out, video_frame_queue s' = video_frame_queue s ++ [out])
  /\ (forall (i : worker_input) (s : vidcap_state_lavf_decoder),
         should_exit s = false -> new_msg s = false -> paused s = false ->
         in_read_rc i < 0 -> in_read_rc i <> AVERROR_EOF ->
         vidcap_file_worker i WTop s
         = (WExited, set_failed true s, [EvSignal new_frame_ready]))
  /\ (forall (i : worker_input) (s : vidcap_state_lavf_decoder),
         should_exit s = false -> new_msg s = false -> paused s = false ->
         in_read_rc i = AVERROR_EOF -> loop s = true -> in_seek_rc i < 0 ->
         vidcap_file_worker i WTop s
         = (WExited, set_failed true s,
            [EvSeekFile (-1) INT64_MIN (ctx_start_time (fmt_ctx s)) INT64_MAX 0;
             EvSignal new_frame_ready]))
  /\ (forall x y : sys,
         failed (st x) = true -> steps x y ->
         failed (st y) = true
         /\ forall t, vidcap_file_grab (st y) t = (GrabRet None None, st y, [])).
Proof.
  split; [exact grab_blocks |]. split; [exact grab_null |].
  split; [| split; [| split; [| split]]].
  - intros s t f q Hq Hf He. eexists _, _. split; [apply (grab_pops s t f q Hq Hf He) |].
    unfold get_audio. cbn [snd]. destruct s; reflexivity.
  - intros i pc s s'. subst s'.
    destruct (worker_shape i pc s) as (f & n & p & l & q & a & m & -> & _ & Hq).
    destruct Hq as [-> | (out & -> & _)]; [left | right; exists out];
      destruct s; reflexivity.
  - intros i s He Hn Hp Hrc Heof. unfold vidcap_file_worker. rewrite He, Hn, Hp.
    unfold worker_read.
    destruct (Z.eqb_spec (in_read_rc i) AVERROR_EOF); [contradiction |].
    destruct (Z.ltb_spec (in_read_rc i) 0); [reflexivity | lia].
  - intros i s He Hn Hp Hrc Hl Hseek. unfold vidcap_file_worker. rewrite He, Hn, Hp.
    unfold worker_read. rewrite Hrc, Z.eqb_refl, Hl.
    destruct (Z.ltb_spec (in_seek_rc i) 0); [reflexivity | lia].
  - intros x y Hf Hs. pose proof (steps_failed x y Hs Hf) as Hy.
    split; [exact Hy |]. intros t. apply grab_null. auto.
Qed.

Lemma grab_contract_witness :
  let s0 := opened (movie 0) "movie.mkv" 0 in
  let s1 := worker_top (video_packet 0 [1; 2; 3]) s0 in
  let s2 := worker_top (read_error (-5)) s1 in
  vidcap_file_grab s0 40000 = (GrabBlocked, s0, [])
  /\ (exists a s',
         vidcap_file_grab s1 40000
         = (GrabRet (Some {| vf_desc := video_desc s0; vf_data := [1; 2; 3] |}) (Some a),
            s', [EvSignal frame_consumed])
         /\ video_frame_queue s' = [])
  /\ vidcap_file_worker (read_error (-5)) WTop s1
     = (WExited, set_failed true s1, [EvSignal new_frame_ready])
  /\ vidcap_file_grab s2 40000 = (GrabRet None None, s2, []).
Proof.
  intros s0 s1 s2.
  destruct grab_contract as (H1 & H2 & H3 & _ & H5 & _ & _).
  split; [apply H1; reflexivity |].
  split; [apply H3; reflexivity |].
  split; [apply H5; try reflexivity; discriminate |].
  apply H2. left. reflexivity.
Defined.

End Grab.

Section EndOfStream.
Import Types CLib File FileSamples.

(** A paused worker without a pending message or exit request waits on
    [paused_cv] and changes nothing. *)
Lemma worker_parked (i : worker_input) (pc : worker_pc) (s : vidcap_state_lavf_decoder) :
  pc = WTop \/ pc = WPausedWait ->
  paused s = true -> new_msg s = false -> should_exit s = false ->
  vidcap_file_worker i pc s = (WPausedWait, s, []).
Proof.
  intros [-> | ->] Hp Hn He; unfold vidcap_file_worker, worker_paused.
  - rewrite He, Hn. cbv beta iota zeta. now rewrite Hp, He, Hn.
  - now rewrite He, Hn.
Qed.

(** While no message arrives and no exit is requested, a handle whose
    worker is parked in the paused state stays so: the queue only
    shrinks, and grab never returns without a frame. *)
Lemma parked_quiet (x y : sys) :
  quiet_steps x y ->
  wpc x = WTop \/ wpc x = WPausedWait ->
  paused (st x) = true -> new_msg (st x) = false ->
  should_exit (st x) = false -> failed (st x) = false ->
  (wpc y = WTop \/ wpc y = WPausedWait)
  /\ paused (st y) = true /\ new_msg (st y) = false
  /\ should_exit (st y) = false /\ failed (st y) = false
  /\ exists k, video_frame_queue (st y) = skipn k (video_frame_queue (st x)).
Proof.
  induction 1 as [x | x y z Hs Hss IH]; intros Hpc Hp Hn He Hf.
  - repeat split; auto. now exists 0%nat.
  - assert (Hy : (wpc y = WTop \/ wpc y = WPausedWait)
                 /\ paused (st y) = true /\ new_msg (st y) = false
                 /\ should_exit (st y) = false /\ failed (st y) = false
                 /\ exists k, video_frame_queue (st y) = skipn k (video_frame_queue (st x))).
    { destruct Hs as [i x pc' s' ev Hw | t x r s' ev Hg]; cbn [st wpc].
      - rewrite (worker_parked i (wpc x) (st x) Hpc Hp Hn He) in Hw.
        inversion Hw; subst. repeat split; auto. now exists 0%nat.
      - destruct (grab_state (st x) t) as [Hs | (f & q & a & Hq & _ & _ & Hs)];
          rewrite Hg in Hs; cbn [fst snd] in Hs; subst s'.
        + repeat split; auto. now exists 0%nat.
        + repeat split; auto; try (destruct (st x); assumption).
          exists 1%nat. rewrite Hq. destruct (st x); reflexivity. }
    destruct Hy as (Hpc' & Hp' & Hn' & He' & Hf' & k & Hk).
    destruct (IH Hpc' Hp' Hn' He' Hf') as (A & B & C & D & E & k' & Hk').
    repeat split; auto. exists (k + k')%nat. rewrite Hk', Hk.
    rewrite skipn_skipn. f_equal. lia.
Qed.

(** C6. When [av_read_frame] reports the end of the stream: (1) in
    loop mode the worker asks the demuxer to seek back to the start
    time of the file and, the seek accepted, goes on with its loop,
    the state unchanged; (2) otherwise it sets the paused flag and goes
    on with its loop; (3) from then on, as long as no message arrives
    and no exit is requested, the worker stays parked, the flags stay
    as they are, no frame is added to the queue, a grab call on the
    empty queue waits and no grab call returns without a frame; (4)
    once exit is requested, as closing the handle does, grab returns
    no frame. *)
Theorem end_of_stream_handling :
  (forall (i : worker_input) (s : vidcap_state_lavf_decoder),
      should_exit s = false -> new_msg s = false -> paused s = false ->
      in_read_rc i = AVERROR_EOF -> loop s = true -> 0 <= in_seek_rc i ->
      vidcap_file_worker i WTop s
      = (WTop, s, [EvSeekFile (-1) INT64_MIN (ctx_start_time (fmt_ctx s)) INT64_MAX 0]))
  /\ (forall (i : worker_input) (s : vidcap_state_lavf_decoder),
         should_exit s = false -> new_msg s = false -> paused s = false ->
         in_read_rc i = AVERROR_EOF -> loop s = false ->
         vidcap_file_worker i WTop s = (WTop, set_paused true s, []))
  /\ (forall (i : worker_input) (s : vidcap_state_lavf_decoder) (tr : list event) (y : sys),
         should_exit s = false -> new_msg s = false -> paused s = false ->
         failed s = false ->
         in_read_rc i = AVERROR_EOF -> loop s = false ->
         quiet_steps {| st := snd (fst (vidcap_file_worker i WTop s));
                        wpc := fst (fst (vidcap_file_worker i WTop s));
                        trace := tr |} y ->
         paused (st y) = true /\ failed (st y) = false /\ should_exit (st y) = false
         /\ (wpc y = WTop \/ wpc y = WPausedWait)
         /\ (exists k, video_frame_queue (st y) = skipn k (video_frame_queue s))
         /\ forall t,
              (video_frame_queue (st y) = [] ->
               vidcap_file_grab (st y) t = (GrabBlocked, st y, []))
              /\ fst (fst (vidcap_file_grab (st y) t)) <> GrabRet None None)
  /\ (forall (s : vidcap_state_lavf_decoder) (t : Z),
         fst (fst (vidcap_file_grab (fst (vidcap_file_should_exit s)) t))
         = GrabRet None None).
Proof.
  assert (Heof : forall i s,
             should_exit s = false -> new_msg s = false -> paused s = false ->
             in_read_rc i = AVERROR_EOF -> loop s = false ->
             vidcap_file_worker i WTop s = (WTop, set_paused true s, [])).
  { intros i s He Hn Hp Hrc Hl. unfold vidcap_file_worker. rewrite He, Hn, Hp.
    unfold worker_read. now rewrite Hrc, Z.eqb_refl, Hl. }
  split; [| split; [exact Heof | split]].
  - intros i s He Hn Hp Hrc Hl Hseek. unfold vidcap_file_worker. rewrite He, Hn, Hp.
    unfold worker_read. rewrite Hrc, Z.eqb_refl, Hl.
    destruct (Z.ltb_spec (in_seek_rc i) 0); [lia | reflexivity].
  - intros i s tr y He Hn Hp Hf Hrc Hl Hq.
    rewrite (Heof i s He Hn Hp Hrc Hl) in Hq. cbn [fst snd] in Hq.
    assert (Hp1 : paused (set_paused true s) = true) by (destruct s; reflexivity).
    assert (Hn1 : new_msg (set_paused true s) = false) by (destruct s; assumption).
    assert (He1 : should_exit (set_paused true s) = false) by (destruct s; assumption).
    assert (Hf1 : failed (set_paused true s) = false) by (destruct s; assumption).
    destruct (parked_quiet _ y Hq (or_introl eq_refl) Hp1 Hn1 He1 Hf1)
      as (Hpc & Hp' & Hn' & He' & Hf' & k & Hk).
    cbn [st] in Hk.
    repeat split; auto.
    + exists k. rewrite Hk. destruct s; reflexivity.
    + intros Hempty. now apply grab_blocks.
    + destruct (video_frame_queue (st y)) as [| f q] eqn:Hqy.
      * rewrite grab_blocks by assumption. discriminate.
      * rewrite (grab_pops (st y) t f q) by assumption. discriminate.
  - intros s t. rewrite grab_null; [reflexivity |]. right. destruct s; reflexivity.
Qed.

Lemma end_of_stream_handling_witness :
  let s0 := opened (movie 0) "movie.mkv" 0 in
  let s1 := opened (movie 0) "movie.mkv:loop" 0 in
  vidcap_file_worker (end_of_stream 0) WTop s1
  = (WTop, s1, [EvSeekFile (-1) INT64_MIN 0 INT64_MAX 0])
  /\ vidcap_file_worker (end_of_stream 0) WTop s0 = (WTop, set_paused true s0, [])
  /\ vidcap_file_grab (set_paused true s0) 40000 = (GrabBlocked, set_paused true s0, []).
Proof.
  intros s0 s1.
  destruct end_of_stream_handling as (H1 & H2 & H3 & _).
  split; [apply H1; try reflexivity; simpl; lia |].
  split; [apply H2; reflexivity |].
  refine (proj1 (proj2 (proj2 (proj2 (proj2 (proj2
            (H3 (end_of_stream 0) s0 [] _ eq_refl eq_refl eq_refl eq_refl eq_refl eq_refl
                (quiet_refl _)))))) 40000) _).
  reflexivity.
Defined.

End EndOfStream.

Section QueueBound.
Import Types CLib File FileSamples.

Lemma size_append {A} (l : list A) (x : A) :
  simple_linked_list_size (simple_linked_list_append l x) = simple_linked_list_size l + 1.
Proof.
  unfold simple_linked_list_size, simple_linked_list_append.
  rewrite length_app. simpl. lia.
Qed.

(** The bound is 1 unless the option [queue=<len>] sets it. *)
Example queue_option :
  max_queue_len (opened (movie 0) "movie.mkv" 0) = 1
  /\ max_queue_len (opened (movie 0) "movie.mkv:loop:queue=3" 0) = 3.
Proof. split; reflexivity. Qed.



(** C1. The worker waits on [frame_consumed] only while the queue
    holds more than [max_queue_len] frames.  With a bound [N >= 1]
    and a queue that already holds [N] frames, a worker reading a
    video packet that decodes to a picture does not wait: it appends
    the frame at once, and the queue holds [N + 1] frames when the
    append completes. *)
Theorem worker_appends_to_full_queue (s : vidcap_state_lavf_decoder) (i : worker_input) :
  1 <= max_queue_len s ->
  simple_linked_list_size (video_frame_queue s) = max_queue_len s ->
  should_exit s = false -> new_msg s = false -> paused s = false ->
  0 <= in_read_rc i ->
  stream_index (in_pkt i) = video_stream_idx s ->
  stream_index (in_pkt i) <> audio_stream_idx s ->
  no_decode s = true \/ in_video i <> None ->
  let r := vidcap_file_worker i WTop s in
  fst (fst r) = WTop
  /\ snd r = [EvSignal new_frame_ready]
  /\ max_queue_len (snd (fst r)) = max_queue_len s
  /\ simple_linked_list_size (video_frame_queue (snd (fst r))) = max_queue_len s + 1
  /\ ~ simple_linked_list_size (video_frame_queue (snd (fst r)))
       <= max_queue_len (snd (fst r)).
Proof.
  intros Hn Hsz He Hm Hp Hrc Hv Ha Hd r. subst r.
  unfold vidcap_file_worker. rewrite He, Hm. cbv beta iota zeta. rewrite Hp.
  unfold worker_read.
  destruct (Z.eqb_spec (in_read_rc i) AVERROR_EOF) as [E | _];
    [rewrite E in Hrc; vm_compute in Hrc; contradiction |].
  destruct (Z.ltb_spec (in_read_rc i) 0); [lia |].
  destruct (Z.eqb_spec (stream_index (in_pkt i)) (audio_stream_idx s)); [contradiction |].
  destruct (Z.eqb_spec (stream_index (in_pkt i)) (video_stream_idx s)); [| contradiction].
  set (l := if pts (in_pkt i) =? AV_NOPTS_VALUE then dts (in_pkt i) else pts (in_pkt i)).
  assert (Henq : forall out,
             worker_enqueue (set_last_vid_pts l s) out []
             = (WTop,
                set_video_frame_queue
                  (simple_linked_list_append (video_frame_queue s) out)
                  (set_last_vid_pts l s),
                [EvSignal new_frame_ready])).
  { intros out. unfold worker_enqueue.
    replace (should_exit (set_last_vid_pts l s)) with false by (destruct s; auto).
    replace (video_frame_queue (set_last_vid_pts l s)) with (video_frame_queue s)
      by (destruct s; auto).
    replace (max_queue_len (set_last_vid_pts l s)) with (max_queue_len s)
      by (destruct s; auto).
    rewrite Hsz. destruct (Z.gtb_spec (max_queue_len s) (max_queue_len s)); [lia |].
    reflexivity. }
  assert (Hfin : forall out,
             let r := worker_enqueue (set_last_vid_pts l s) out [] in
             fst (fst r) = WTop
             /\ snd r = [EvSignal new_frame_ready]
             /\ max_queue_len (snd (fst r)) = max_queue_len s
             /\ simple_linked_list_size (video_frame_queue (snd (fst r)))
                = max_queue_len s + 1
             /\ ~ simple_linked_list_size (video_frame_queue (snd (fst r)))
                  <= max_queue_len (snd (fst r))).
  { intros out r. subst r. rewrite Henq. cbn [fst snd].
    pose proof (size_append (video_frame_queue s) out) as Hx.
    destruct s; simpl in *. repeat split; lia. }
  replace (no_decode (set_last_vid_pts l s)) with (no_decode s) by (destruct s; auto).
  destruct (no_decode s) eqn:Hnd; [apply Hfin |].
  destruct (in_video i) as [pixels |] eqn:Hvid; [apply Hfin |].
  destruct Hd as [Hd | Hd]; [discriminate | contradiction].
Qed.

Lemma worker_appends_to_full_queue_witness :
  let s := worker_top (video_packet 0 [1]) (opened (movie 0) "movie.mkv:queue=1" 0) in
  let r := vidcap_file_worker (video_packet 3600 [2]) WTop s in
  (max_queue_len s = 1 /\ simple_linked_list_size (video_frame_queue s) = 1)
  /\ fst (fst r) = WTop
  /\ snd r = [EvSignal new_frame_ready]
  /\ max_queue_len (snd (fst r)) = 1
  /\ simple_linked_list_size (video_frame_queue (snd (fst r))) = 1 + 1
  /\ ~ simple_linked_list_size (video_frame_queue (snd (fst r)))
       <= max_queue_len (snd (fst r)).
Proof.
  intros s r. split; [split; reflexivity |].
  apply (worker_appends_to_full_queue s (video_packet 3600 [2]));
    try reflexivity; try (simpl; lia); try discriminate.
  right. discriminate.
Defined.

End QueueBound.

Section GrabAudio.
Import Types CLib File FileSamples.

(** C7. A session opened without any audio flag has [use_audio] unset,
    no audio stream and an all-zero audio frame; a worker then queues
    one video frame.  The grab call that returns this frame also
    returns an audio frame, of length zero: the audio out-parameter
    is not left null.  The same holds for every state: whenever grab
    returns a video frame it returns an audio frame with it, whatever
    [use_audio] is. *)
Theorem grab_returns_audio_without_request :
  (let s0 := opened (movie 0) "movie.mkv" 0 in
   let s1 := worker_top (video_packet 0 [1; 2; 3]) s0 in
   fst (vidcap_file_init (movie 0) {| params_fmt := "movie.mkv"; params_flags := 0 |})
   = VIDCAP_INIT_OK
   /\ use_audio s1 = false
   /\ audio_stream_idx s1 = -1
   /\ fst (fst (vidcap_file_grab s1 40000))
      = GrabRet (Some {| vf_desc := video_desc s0; vf_data := [1; 2; 3] |})
                (Some zero_audio_frame))
  /\ (forall (s : vidcap_state_lavf_decoder) (t : Z) (f : video_frame)
             (audio : option Types.audio_frame),
         fst (fst (vidcap_file_grab s t)) = GrabRet (Some f) audio ->
         audio <> None).
Proof.
  split.
  - repeat split.
  - intros s t f audio H.
    destruct (failed s) eqn:Hf; [rewrite grab_null in H by auto; discriminate |].
    destruct (should_exit s) eqn:He; [rewrite grab_null in H by auto; discriminate |].
    destruct (video_frame_queue s) as [| f' q] eqn:Hq;
      [rewrite grab_blocks in H by auto; discriminate |].
    rewrite (grab_pops s t f' q Hq Hf He) in H. cbn [fst] in H.
    destruct audio; [discriminate | exfalso].
    remember (fst (get_audio (set_video_frame_queue q s) (fps (vf_desc f')))) as a.
    clear - H. discriminate H.
Qed.

End GrabAudio.

(** ** Further properties of the file backend *)
Section Further.
Import Types CLib File FileSamples.
Local Open Scope string_scope.





Lemma step_should_exit_kept (x y : sys) :
  step x y -> should_exit (st x) = true -> should_exit (st y) = true.
Proof.
  intros Hs Hf. destruct Hs as [i x pc' s' ev Hw | t x r s' ev Hg | text x s' ev Hm | x s' ev He];
    cbn [st].
  - pose proof (worker_shape i (wpc x) (st x)) as Hu. rewrite Hw in Hu. cbn [fst snd] in Hu.
    destruct Hu as (f & n & p & l & q & a & m & -> & _ & _).
    destruct (st x); assumption.
  - destruct (grab_state (st x) t) as [Hs | (f & q & a & _ & _ & Hf' & _)].
    + rewrite Hg in Hs. simpl in Hs. now subst s'.
    + congruence.
  - unfold vidcap_file_new_message in Hm. inversion Hm; subst. destruct (st x); auto.
  - unfold vidcap_file_should_exit in He. inversion He; subst. destruct (st x); auto.
Qed.

(** X3. Shutdown: the callback sets [should_exit] and signals the three
    condition variables the worker and the consumer may wait on; once
    set, [should_exit] is never cleared; and wherever the worker
    stands (head of the loop, waiting while paused, waiting for room
    in the queue) its next step returns from the thread function
    without changing the state, so that it can be joined. *)
Theorem shutdown_reaches_worker :
  (forall s : vidcap_state_lavf_decoder,
      should_exit (fst (vidcap_file_should_exit s)) = true
      /\ snd (vidcap_file_should_exit s)
         = [EvSignal new_frame_ready; EvSignal frame_consumed; EvSignal paused_cv])
  /\ (forall x y : sys, should_exit (st x) = true -> steps x y -> should_exit (st y) = true)
  /\ (forall (i : worker_input) (pc : worker_pc) (s : vidcap_state_lavf_decoder),
         should_exit s = true ->
         fst (fst (vidcap_file_worker i pc s)) = WExited
         /\ snd (fst (vidcap_file_worker i pc s)) = s).
Proof.
  split; [| split].
  - intros s. split; [destruct s |]; reflexivity.
  - intros x y Hx Hs. induction Hs as [x | x y z Hxy Hyz IH]; [assumption |].
    apply IH. now apply (step_should_exit_kept x y).
  - intros i pc s He. destruct pc as [| | out |]; simpl.
    + now rewrite He.
    + unfold worker_paused. now rewrite He.
    + unfold worker_enqueue. now rewrite He.
    + auto.
Qed.

End Further.
